(** * Token metering, rate limiting and reservations

    A shallow embedding of [eventhandlers/token_meter.py] (the classes
    [TokenMeter], [TokenLimiter] and [TokenReservationManager]), of the
    admission prefix and the cleanup of [lambda_handler] in
    [eventhandlers/chatbot_handler.py], of the channel authorisation
    ([eventhandlers/auth.py], [eventhandlers/subscribe_handler.py]) and of
    [MessageTracker] in [eventhandlers/messages.py], followed by the
    properties established about them.

    Conventions of the embedding:
    - Python [int] is [Z]; a [dict] with string keys is a [gmap string _];
      a dictionary of fixed shape (a period configuration, the usage returned
      by one meter) is a record.
    - The DynamoDB table, the clock, the uuid generator and the published
      events form an explicit [World] that every effectful function threads
      through the monad [M], which also carries Python exceptions.
    - [os.environ] is a [gmap string Z]: each variable the module reads is
      passed through [int(...)], and the map holds the integer so obtained.
      These integers are within the range of a float (below
      2^1024 - 2^970 in magnitude), beyond which the product of
      DAILY_OUTPUT_LIMIT with 0.5 raises OverflowError.
    - A product of an [int] with a float converts the [int] to the nearest
      double first ([float_of_int]). *)

From Stdlib Require Import ZArith String Ascii List Lia.
From stdpp Require Import gmap strings list fin_maps.

Local Open Scope string_scope.
Local Open Scope list_scope.
Local Open Scope Z_scope.

(* ===================================================================== *)
(** ** Dates and times ([datetime.datetime], [datetime.timedelta])       *)
(* ===================================================================== *)

(** A naive [datetime.datetime]: the calendar fields as Python stores them. *)
Record datetime := mk_datetime {
  year : Z; month : Z; day : Z;
  hour : Z; minute : Z; second : Z; microsecond : Z
}.

(** A [datetime.timedelta], as its total number of microseconds. *)
Definition timedelta := Z.

Definition timedelta_of (days minutes : Z) : timedelta :=
  (days * 86400 + minutes * 60) * 1000000.

(** Days between 1970-01-01 and the given date of the proleptic Gregorian
    calendar (the calendar of [datetime.date]). *)
Definition days_from_civil (y m d : Z) : Z :=
  let y' := if m <=? 2 then y - 1 else y in
  let era := y' / 400 in
  let yoe := y' - era * 400 in
  let mp := if m <=? 2 then m + 9 else m - 3 in
  let doy := (153 * mp + 2) / 5 + d - 1 in
  let doe := yoe * 365 + yoe / 4 - yoe / 100 + doy in
  era * 146097 + doe - 719468.

(** The inverse: the date that lies [z] days after 1970-01-01. *)
Definition civil_from_days (z : Z) : Z * Z * Z :=
  let z' := z + 719468 in
  let era := z' / 146097 in
  let doe := z' - era * 146097 in
  let yoe := (doe - doe / 1460 + doe / 36524 - doe / 146096) / 365 in
  let doy := doe - (365 * yoe + yoe / 4 - yoe / 100) in
  let mp := (5 * doy + 2) / 153 in
  let d := doy - (153 * mp + 2) / 5 + 1 in
  let m := if mp <? 10 then mp + 3 else mp - 9 in
  let y := yoe + era * 400 in
  (if m <=? 2 then y + 1 else y, m, d).

(** Microseconds between 1970-01-01T00:00:00 and [dt]. *)
Definition datetime_to_micro (dt : datetime) : Z :=
  (((days_from_civil (year dt) (month dt) (day dt) * 24 + hour dt) * 60
    + minute dt) * 60 + second dt) * 1000000 + microsecond dt.

Definition datetime_of_micro (us : Z) : datetime :=
  let days := us / 86400000000 in
  let rest := us mod 86400000000 in
  let '(y, m, d) := civil_from_days days in
  {| year := y; month := m; day := d;
     hour := rest / 3600000000;
     minute := (rest / 60000000) mod 60;
     second := (rest / 1000000) mod 60;
     microsecond := rest mod 1000000 |}.

(** [dt + delta] and [dt - delta] for a timedelta, [a - b] for two datetimes.
    (Python raises OverflowError outside the years 1..9999; the model does
    not bound the year.) *)
Definition datetime_add (dt : datetime) (delta : timedelta) : datetime :=
  datetime_of_micro (datetime_to_micro dt + delta).

Definition datetime_sub (dt : datetime) (delta : timedelta) : datetime :=
  datetime_of_micro (datetime_to_micro dt - delta).

Definition datetime_diff (a b : datetime) : timedelta :=
  datetime_to_micro a - datetime_to_micro b.

(** [int(dt.timestamp())].  A naive datetime is read in the local time zone,
    taken to be UTC (the zone of the Lambda runtime); [int] truncates the
    float toward zero. *)
Definition int_timestamp (dt : datetime) : Z :=
  Z.quot (datetime_to_micro dt) 1000000.

(** *** [strftime] *)

Definition digit (n : Z) : string :=
  String (ascii_of_N (Z.to_N (48 + n mod 10))) EmptyString.

Definition pad2 (n : Z) : string := digit (n / 10) +:+ digit n.

Definition pad4 (n : Z) : string :=
  digit (n / 1000) +:+ digit (n / 100) +:+ pad2 n.

(** The directives the module uses; anything else is copied as it stands. *)
Definition strftime_directive (c : ascii) (dt : datetime) : string :=
  if Ascii.eqb c "Y" then pad4 (year dt)
  else if Ascii.eqb c "m" then pad2 (month dt)
  else if Ascii.eqb c "d" then pad2 (day dt)
  else if Ascii.eqb c "H" then pad2 (hour dt)
  else if Ascii.eqb c "M" then pad2 (minute dt)
  else String "%" (String c EmptyString).

Fixpoint strftime (fmt : string) (dt : datetime) : string :=
  match fmt with
  | EmptyString => EmptyString
  | String c rest =>
      if Ascii.eqb c "%" then
        match rest with
        | String d rest' => strftime_directive d dt +:+ strftime rest' dt
        | EmptyString => String c EmptyString
        end
      else String c (strftime rest dt)
  end.

(* ===================================================================== *)
(** ** The DynamoDB table and the world around the handlers              *)
(* ===================================================================== *)

(** A DynamoDB attribute value, [{"S": s}] or [{"N": n}]. *)
Inductive AttributeValue :=
  | AttrS (s : string)
  | AttrN (n : Z).

(** [item.get(attr, {}).get("N", "0")] passed through [int]: the number held
    by a numeric attribute, 0 when the attribute is missing or is a string. *)
Definition attr_N (item : gmap string AttributeValue) (attr : string) : Z :=
  match item !! attr with
  | Some (AttrN n) => n
  | _ => 0
  end.

(** The methods of the boto3 client that the module calls. *)
Inductive Method := Query | GetItem | PutItem | UpdateItem | DeleteItem.

#[global] Instance Method_eq_dec : EqDecision Method.
Proof. solve_decision. Defined.

(** Python exceptions that can reach the code under study. *)
Inductive exn :=
  | ClientError (m : Method)      (* the store call failed *)
  | ValidationException           (* the store rejected the request *)
  | KeyError (key : string).      (* a missing dictionary key *)

(** The [details] of an error event: the token type, the period and the
    usage read at admission, or the text of an exception. *)
Inductive Details :=
  | LimitDetails (tokenType period : option string) (tokenUsage : gmap string Z)
  | ErrorDetails (error : exn).

(** The event sent to the frontend. *)
Record Event := {
  error_type : string;
  message : string;
  details : option Details
}.

(** The world: the table, keyed by (user_id, period_id); what the clock, the
    uuid generator and the store will answer to the calls still to come; and
    the events published so far (latest first).  [faults m k] tells whether
    the k-th next call of client method [m] raises. *)
Record World := {
  table : gmap (string * string) (gmap string AttributeValue);
  clock : nat → datetime;
  uuids : nat → string;
  faults : Method → nat → bool;
  outbox : list Event
}.

Inductive Res (A : Type) :=
  | Ok (a : A)
  | Raise (e : exn).
Arguments Ok {A} a.
Arguments Raise {A} e.

(** State and exceptions. *)
Definition M (A : Type) : Type := World → Res A * World.

Definition ret {A} (a : A) : M A := λ w, (Ok a, w).

Definition bind {A B} (c : M A) (k : A → M B) : M B :=
  λ w, match c w with
       | (Ok a, w') => k a w'
       | (Raise e, w') => (Raise e, w')
       end.

Definition raise {A} (e : exn) : M A := λ w, (Raise e, w).

(** [try: body  except Exception as e: handler e]. *)
Definition try_except {A} (body : M A) (handler : exn → M A) : M A :=
  λ w, match body w with
       | (Ok a, w') => (Ok a, w')
       | (Raise e, w') => handler e w'
       end.

#[global] Instance M_ret : MRet M := @ret.
#[global] Instance M_bind : MBind M := λ A B k c, bind c k.

(** The steps of the world. *)
Definition advance_clock (w : World) : World :=
  {| table := table w; clock := λ n, clock w (S n); uuids := uuids w;
     faults := faults w; outbox := outbox w |}.

Definition advance_uuids (w : World) : World :=
  {| table := table w; clock := clock w; uuids := λ n, uuids w (S n);
     faults := faults w; outbox := outbox w |}.

Definition consume_fault (m : Method) (w : World) : World :=
  {| table := table w; clock := clock w; uuids := uuids w;
     faults := λ m' k, if decide (m' = m) then faults w m' (S k) else faults w m' k;
     outbox := outbox w |}.

Definition set_table (t : gmap (string * string) (gmap string AttributeValue))
    (w : World) : World :=
  {| table := t; clock := clock w; uuids := uuids w;
     faults := faults w; outbox := outbox w |}.

Definition push_event (ev : Event) (w : World) : World :=
  {| table := table w; clock := clock w; uuids := uuids w;
     faults := faults w; outbox := ev :: outbox w |}.

(** [datetime.datetime.now()]. *)
Definition now : M datetime := λ w, (Ok (clock w 0%nat), advance_clock w).

(** [str(uuid.uuid4())]. *)
Definition uuid4 : M string := λ w, (Ok (uuids w 0%nat), advance_uuids w).

(** One call of client method [m]: it raises when the world says so. *)
Definition client_call (m : Method) : M unit :=
  λ w, if faults w m 0%nat
       then (Raise (ClientError m), consume_fault m w)
       else (Ok tt, consume_fault m w).

Definition read_table : M (gmap (string * string) (gmap string AttributeValue)) :=
  λ w, (Ok (table w), w).

Definition write_table (t : gmap (string * string) (gmap string AttributeValue)) : M unit :=
  λ w, (Ok tt, set_table t w).

(** [publish_to_channel]: the event reaches the frontend. *)
Definition publish_to_channel (ev : Event) : M unit :=
  λ w, (Ok tt, push_event ev w).

(** *** The client methods

    A call that raises leaves the table as it was.  [query] returns every
    matching item (a single page) in no particular order: its callers only
    sum over the result. *)

Inductive KeyCondition :=
  | BeginsWith (p : string)       (* begins_with(period_id, :prefix) *)
  | Between (lo hi : string).     (* period_id BETWEEN :start AND :end *)

Definition key_matches (c : KeyCondition) (period_id : string) : bool :=
  match c with
  | BeginsWith p => String.prefix p period_id
  | Between lo hi => String.leb lo period_id && String.leb period_id hi
  end.

(** An item as the store returns it: with its two key attributes. *)
Definition with_key (k : string * string) (attrs : gmap string AttributeValue)
  : gmap string AttributeValue :=
  <["user_id" := AttrS k.1]> (<["period_id" := AttrS k.2]> attrs).

Definition selected (user_id : string) (c : KeyCondition)
    (t : gmap (string * string) (gmap string AttributeValue))
  : gmap (string * string) (gmap string AttributeValue) :=
  filter (λ kv, kv.1.1 = user_id ∧ key_matches c kv.1.2 = true) t.

(** [dynamodb.query(...)]: the value of [response.get("Items", [])]. *)
Definition query (user_id : string) (c : KeyCondition)
  : M (list (gmap string AttributeValue)) :=
  client_call Query;;
  t ← read_table;
  mret ((λ kv, with_key kv.1 kv.2) <$> map_to_list (selected user_id c t)).

(** [dynamodb.get_item(...)]: the value of [response.get("Item")]. *)
Definition get_item (key : string * string)
  : M (option (gmap string AttributeValue)) :=
  client_call GetItem;;
  t ← read_table;
  mret (with_key key <$> t !! key).

(** [dynamodb.put_item(Item=item)]: an unconditional upsert under the key
    the item carries. *)
Definition put_item (item : gmap string AttributeValue) : M unit :=
  client_call PutItem;;
  match item !! "user_id", item !! "period_id" with
  | Some (AttrS u), Some (AttrS p) =>
      t ← read_table; write_table (<[(u, p) := item]> t)
  | _, _ => raise ValidationException
  end.

(** [dynamodb.delete_item(Key=key)]: deleting an absent key succeeds. *)
Definition delete_item (key : string * string) : M unit :=
  client_call DeleteItem;;
  t ← read_table; write_table (delete key t).

(** The clauses of an UpdateExpression.  Each one reads the item as it was
    before the update. *)
Inductive UpdateAction :=
  | ADD (attr : string) (n : Z)
  | SET (attr : string) (v : AttributeValue)
  | SET_if_not_exists (attr : string) (v : AttributeValue).

Definition apply_action (old : gmap string AttributeValue)
    (acc : option (gmap string AttributeValue)) (a : UpdateAction)
  : option (gmap string AttributeValue) :=
  match acc with
  | None => None
  | Some item =>
      match a with
      | ADD attr n =>
          match old !! attr with
          | None => Some (<[attr := AttrN n]> item)
          | Some (AttrN k) => Some (<[attr := AttrN (k + n)]> item)
          | Some (AttrS _) => None
          end
      | SET attr v => Some (<[attr := v]> item)
      | SET_if_not_exists attr v =>
          match old !! attr with
          | None => Some (<[attr := v]> item)
          | Some _ => Some item
          end
      end
  end.

(** [dynamodb.update_item(Key=key, UpdateExpression=...)]: the item is
    created when absent; ADD on a non-numeric attribute is refused. *)
Definition update_item (key : string * string) (actions : list UpdateAction)
  : M unit :=
  client_call UpdateItem;;
  t ← read_table;
  let old := default ∅ (t !! key) in
  match fold_left (apply_action old) actions (Some old) with
  | Some item => write_table (<[key := item]> t)
  | None => raise ValidationException
  end.

(* ===================================================================== *)
(** ** Period configurations                                             *)
(* ===================================================================== *)

(** [os.environ]: see the conventions at the top of the file. *)
Definition environ_get_int (environ : gmap string Z) (key : string) (dflt : Z) : Z :=
  default dflt (environ !! key).

(** [limit or fallback] for an optional integer: [None] and [0] are falsy. *)
Definition py_or (limit : option Z) (fallback : Z) : Z :=
  match limit with
  | Some v => if v =? 0 then fallback else v
  | None => fallback
  end.

(** The [ttl_delta] entry: a timedelta, or a function of the current time. *)
Inductive TtlDelta :=
  | FixedDelta (d : timedelta)
  | CallableDelta (f : datetime → timedelta).

(** The [period_config] dictionary, with the keys [TokenMeter.__init__]
    requires and [query_window]. *)
Record PeriodConfig := {
  name : string;
  description : string;
  id_format : datetime → string;
  round_time : datetime → datetime;
  ttl_delta : TtlDelta;
  query_window : option timedelta;
  input_limit : Z;
  output_limit : Z;
  prefix : string;
  aggregate : bool
}.

Definition next_month_delta (dt : datetime) : timedelta :=
  let next_month :=
    datetime_add
      {| year := year dt; month := month dt; day := 28; hour := hour dt;
         minute := minute dt; second := second dt;
         microsecond := microsecond dt |}
      (timedelta_of 4 0) in
  datetime_diff
    {| year := year next_month; month := month next_month; day := 1;
       hour := hour next_month; minute := minute next_month;
       second := second next_month; microsecond := microsecond next_month |}
    dt.

Definition create_ten_minute_period (environ : gmap string Z)
    (input_limit output_limit : option Z) : PeriodConfig :=
  {| name := "10min";
     description := "daily";
     id_format := λ dt, "10min:" +:+ strftime "%Y-%m-%d:%H:%M" dt;
     round_time := λ dt,
       {| year := year dt; month := month dt; day := day dt; hour := hour dt;
          minute := (minute dt / 10) * 10; second := 0; microsecond := 0 |};
     ttl_delta := FixedDelta (timedelta_of 1 0);
     query_window := Some (timedelta_of 1 0);
     input_limit := py_or input_limit (environ_get_int environ "DAILY_INPUT_LIMIT" 10000);
     output_limit := py_or output_limit (environ_get_int environ "DAILY_OUTPUT_LIMIT" 20000);
     prefix := "10min:";
     aggregate := true |}.

Definition create_monthly_period (environ : gmap string Z)
    (input_limit output_limit : option Z) : PeriodConfig :=
  {| name := "monthly";
     description := "monthly";
     id_format := λ dt, "monthly:" +:+ strftime "%Y-%m" dt;
     round_time := λ dt,
       {| year := year dt; month := month dt; day := 1; hour := 0;
          minute := 0; second := 0; microsecond := 0 |};
     ttl_delta := CallableDelta next_month_delta;
     query_window := None;
     input_limit := py_or input_limit (environ_get_int environ "MONTHLY_INPUT_LIMIT" 100000);
     output_limit := py_or output_limit (environ_get_int environ "MONTHLY_OUTPUT_LIMIT" 200000);
     prefix := "monthly:";
     aggregate := false |}.

Definition create_hourly_period (environ : gmap string Z)
    (input_limit output_limit : option Z) : PeriodConfig :=
  {| name := "hourly";
     description := "hourly";
     id_format := λ dt, "hourly:" +:+ strftime "%Y-%m-%d:%H" dt;
     round_time := λ dt,
       {| year := year dt; month := month dt; day := day dt; hour := hour dt;
          minute := 0; second := 0; microsecond := 0 |};
     ttl_delta := FixedDelta (timedelta_of 1 0);
     query_window := None;
     input_limit := py_or input_limit (environ_get_int environ "HOURLY_INPUT_LIMIT" 1000);
     output_limit := py_or output_limit (environ_get_int environ "HOURLY_OUTPUT_LIMIT" 2000);
     prefix := "hourly:";
     aggregate := false |}.

(* ===================================================================== *)
(** ** [class TokenMeter]                                                *)
(* ===================================================================== *)

(** The usage dictionary of one meter,
    [{"input_tokens": ..., "output_tokens": ...}]. *)
Record Usage := {
  input_tokens : Z;
  output_tokens : Z
}.

Module TokenMeter.

(** An instance.  The client and the table name are those of the world.
    The key check of [__init__] holds of every [PeriodConfig]. *)
Record t := { period_config : PeriodConfig }.

Definition _sum_period_usage (items : list (gmap string AttributeValue)) : Usage :=
  let '(total_input, total_output) :=
    fold_left
      (λ '(total_input, total_output) item,
         (total_input + attr_N item "input_tokens",
          total_output + attr_N item "output_tokens"))
      items (0, 0) in
  {| input_tokens := total_input; output_tokens := total_output |}.

Definition _get_usage (self : t) (user_id : string) : M Usage :=
  let cfg := period_config self in
  now ← now;
  if aggregate cfg then
    match query_window cfg with
    | Some window =>
        if window =? 0 then
          try_except
            (items ← query user_id (BeginsWith (prefix cfg));
             mret (_sum_period_usage items))
            (λ _, mret {| input_tokens := 0; output_tokens := 0 |})
        else
          let start_time := datetime_sub now window in
          let start_key := prefix cfg +:+ strftime "%Y-%m-%d:%H:%M" start_time in
          let end_key := prefix cfg +:+ strftime "%Y-%m-%d:%H:%M" now in
          try_except
            (items ← query user_id (Between start_key end_key);
             mret (_sum_period_usage items))
            (λ _, mret {| input_tokens := 0; output_tokens := 0 |})
    | None =>
        try_except
          (items ← query user_id (BeginsWith (prefix cfg));
           mret (_sum_period_usage items))
          (λ _, mret {| input_tokens := 0; output_tokens := 0 |})
    end
  else
    let period_id := id_format cfg now in
    try_except
      (response ← get_item (user_id, period_id);
       let item := default ∅ response in
       mret {| input_tokens := attr_N item "input_tokens";
               output_tokens := attr_N item "output_tokens" |})
      (λ _, mret {| input_tokens := 0; output_tokens := 0 |}).

(** The check that the usage has both keys holds of every [Usage]. *)
Definition is_limit_exceeded (self : t) (user_id : string)
  : M (bool * option string * Usage) :=
  usage ← _get_usage self user_id;
  if input_limit (period_config self) <=? input_tokens usage then
    mret (true, Some "input", usage)
  else if output_limit (period_config self) <=? output_tokens usage then
    mret (true, Some "output", usage)
  else mret (false, None, usage).

Definition update_usage (self : t) (user_id : string)
    (input_tokens output_tokens : Z) : M bool :=
  let cfg := period_config self in
  try_except
    (now ← now;
     let rounded_time := round_time cfg now in
     let period_id := id_format cfg rounded_time in
     let delta := match ttl_delta cfg with
                  | CallableDelta f => f now
                  | FixedDelta d => d
                  end in
     let ttl_time := datetime_add now delta in
     let ttl_value := int_timestamp ttl_time in
     update_item (user_id, period_id)
       [ADD "input_tokens" input_tokens;
        ADD "output_tokens" output_tokens;
        SET_if_not_exists "timestamp" (AttrN (int_timestamp now));
        SET "ttl" (AttrN ttl_value)];;
     mret true)
    (λ _, mret false).

End TokenMeter.

(* ===================================================================== *)
(** ** [class TokenReservationManager]                                   *)
(* ===================================================================== *)

(** [float(n)] for an [int], the conversion Python applies to the integer
    operand of a product with a float: the double nearest to [n], a tie
    going to the even mantissa (IEEE 754 round-to-nearest-even on a
    mantissa of 53 bits).  Integers up to 2^53 in magnitude are kept as
    they are; the value of the double is an integer in every case. *)
Definition float_of_int (n : Z) : Z :=
  let a := Z.abs n in
  let e := Z.log2 a - 52 in
  if e <=? 0 then n
  else
    let q := a / 2 ^ e in
    let r := a mod 2 ^ e in
    let half := 2 ^ (e - 1) in
    let q := if (half <? r) || ((r =? half) && Z.odd q) then q + 1 else q in
    Z.sgn n * (q * 2 ^ e).

(** [int(daily_output_limit * 0.5)].  The limit is converted to a float,
    halving a float is exact, and [int] truncates toward zero. *)
Definition reservation_amount_of (daily_output_limit : Z) : Z :=
  Z.quot (float_of_int daily_output_limit) 2.

Module TokenReservationManager.

Record t := { reservation_ttl_minutes : Z }.

Definition init (environ : gmap string Z) : t :=
  {| reservation_ttl_minutes := environ_get_int environ "RESERVATION_TTL_MINUTES" 10 |}.

(** One entry of the list [get_active_reservations] returns. *)
Record Reservation := {
  reservation_id : string;
  output_tokens : Z;
  timestamp : Z
}.

Definition create_reservation (self : t) (environ : gmap string Z)
    (user_id : string) : M (option string) :=
  try_except
    (let daily_output_limit := environ_get_int environ "DAILY_OUTPUT_LIMIT" 20000 in
     let reservation_amount := reservation_amount_of daily_output_limit in
     reservation_uuid ← uuid4;
     now ← now;
     let date_str := strftime "%Y-%m-%d" now in
     let reservation_id := "reservation:daily:" +:+ date_str +:+ ":" +:+ reservation_uuid in
     let ttl_time := datetime_add now (timedelta_of 0 (reservation_ttl_minutes self)) in
     let ttl_value := int_timestamp ttl_time in
     put_item
       (<["user_id" := AttrS user_id]>
        (<["period_id" := AttrS reservation_id]>
         (<["input_tokens" := AttrN 0]>
          (<["output_tokens" := AttrN reservation_amount]>
           (<["timestamp" := AttrN (int_timestamp now)]>
            (<["ttl" := AttrN ttl_value]> ∅))))));;
     mret (Some reservation_id))
    (λ _, mret None).

Definition remove_reservation (self : t) (user_id reservation_id : string) : M bool :=
  try_except
    (delete_item (user_id, reservation_id);;
     mret true)
    (λ _, mret false).

(** The loop that turns the items of the response into reservations;
    [item["period_id"]["S"]] raises when the attribute is missing. *)
Fixpoint reservations_of (items : list (gmap string AttributeValue))
    (reservations : list Reservation) : M (list Reservation) :=
  match items with
  | [] => mret reservations
  | item :: rest =>
      match item !! "period_id" with
      | Some (AttrS s) =>
          reservations_of rest
            (reservations ++
               [{| reservation_id := s;
                   output_tokens := attr_N item "output_tokens";
                   timestamp := attr_N item "timestamp" |}])
      | _ => raise (KeyError "period_id")
      end
  end.

Definition get_active_reservations (self : t) (user_id : string)
  : M (list Reservation) :=
  try_except
    (now ← now;
     let date_str := strftime "%Y-%m-%d" now in
     let reservation_prefix := "reservation:daily:" +:+ date_str +:+ ":" in
     items ← query user_id (BeginsWith reservation_prefix);
     reservations_of items [])
    (λ _, mret []).

Definition get_total_reserved_tokens (self : t) (user_id : string) : M Z :=
  reservations ← get_active_reservations self user_id;
  mret (foldr Z.add 0 (output_tokens <$> reservations)).

End TokenReservationManager.

(** *** [TokenReservationManager.cleanup_expired_reservations]

    The method is declared next to the class it belongs to. *)

(** The loop over the items of the response: an item whose TTL has elapsed
    is removed, and counted when the removal succeeded. *)
Fixpoint cleanup_items (self : TokenReservationManager.t) (user_id : string)
    (current_timestamp : Z) (items : list (gmap string AttributeValue))
    (cleaned_count : Z) : M Z :=
  match items with
  | [] => mret cleaned_count
  | item :: rest =>
      let ttl_value := attr_N item "ttl" in
      if (0 <? ttl_value) && (ttl_value <? current_timestamp) then
        match item !! "period_id" with
        | Some (AttrS reservation_id) =>
            ok ← TokenReservationManager.remove_reservation self user_id reservation_id;
            cleanup_items self user_id current_timestamp rest
              (if ok : bool then cleaned_count + 1 else cleaned_count)
        | _ => raise (KeyError "period_id")
        end
      else cleanup_items self user_id current_timestamp rest cleaned_count
  end.

Definition cleanup_expired_reservations (self : TokenReservationManager.t)
    (user_id : string) : M Z :=
  try_except
    (now ← now;
     let current_timestamp := int_timestamp now in
     items ← query user_id (BeginsWith "reservation:");
     cleanup_items self user_id current_timestamp items 0)
    (λ _, mret 0).

(* ===================================================================== *)
(** ** [class TokenLimiter]                                              *)
(* ===================================================================== *)

(** [d[key]] for a usage dictionary whose keys are known to be present, and
    [d.get(key, 0)]. *)
Definition dict_get (d : gmap string Z) (key : string) : Z :=
  default 0 (d !! key).

Module TokenLimiter.

Record t := {
  meters : list TokenMeter.t;
  reservation_manager : TokenReservationManager.t
}.

Definition init (environ : gmap string Z) (meters : option (list TokenMeter.t)) : t :=
  {| meters :=
       match meters with
       | None =>
           let daily_meter :=
             {| TokenMeter.period_config := create_ten_minute_period environ None None |} in
           let monthly_meter :=
             {| TokenMeter.period_config := create_monthly_period environ None None |} in
           [daily_meter; monthly_meter]
       | Some meters => meters
       end;
     reservation_manager := TokenReservationManager.init environ |}.

(** The result tuple [(is_exceeded, token_type, period_description,
    usage_data)]. *)
Definition LimitResult : Type := bool * option string * option string * gmap string Z.

(** The usage data before any meter is read. *)
Definition initial_usage : gmap string Z :=
  <["input_tokens" := 0]>
  (<["output_tokens" := 0]>
   (<["monthly_input_tokens" := 0]>
    (<["monthly_output_tokens" := 0]>
     (<["daily_input_tokens" := 0]>
      (<["daily_output_tokens" := 0]> ∅))))).

(** The effect of one meter's usage on the usage data. *)
Definition record_meter (meter_name : string) (usage : Usage)
    (total_usage : gmap string Z) : gmap string Z :=
  let total_usage :=
    if decide (meter_name = "monthly") then
      <["monthly_output_tokens" := output_tokens usage]>
        (<["monthly_input_tokens" := input_tokens usage]> total_usage)
    else if decide (meter_name = "10min") then
      <["daily_output_tokens" := output_tokens usage]>
        (<["daily_input_tokens" := input_tokens usage]> total_usage)
    else total_usage in
  let total_usage :=
    <["input_tokens" :=
        Z.max (dict_get total_usage "input_tokens") (input_tokens usage)]>
      total_usage in
  <["output_tokens" :=
      Z.max (dict_get total_usage "output_tokens") (output_tokens usage)]>
    total_usage.

(** The loop [for meter in self.meters], from the usage data so far. *)
Fixpoint check_meters (meters : list TokenMeter.t) (user_id : string)
    (total_usage : gmap string Z) : M LimitResult :=
  match meters with
  | [] => mret (false, None, None, total_usage)
  | meter :: rest =>
      '(is_exceeded, token_type, usage) ← TokenMeter.is_limit_exceeded meter user_id;
      let total_usage :=
        record_meter (name (TokenMeter.period_config meter)) usage total_usage in
      if is_exceeded : bool then
        mret (true, token_type,
              Some (description (TokenMeter.period_config meter)), total_usage)
      else check_meters rest user_id total_usage
  end.

Definition is_limit_exceeded (self : t) (user_id : string) : M LimitResult :=
  check_meters (meters self) user_id initial_usage.

(** The loop [for meter in self.meters] of [update_usage]. *)
Fixpoint update_meters (meters : list TokenMeter.t) (user_id : string)
    (input_tokens output_tokens : Z) (success : bool) : M bool :=
  match meters with
  | [] => mret success
  | meter :: rest =>
      ok ← TokenMeter.update_usage meter user_id input_tokens output_tokens;
      update_meters rest user_id input_tokens output_tokens
        (if ok : bool then success else false)
  end.

Definition update_usage (self : t) (user_id : string)
    (input_tokens output_tokens : Z) : M bool :=
  update_meters (meters self) user_id input_tokens output_tokens true.

Definition is_limit_exceeded_with_reservation (self : t)
    (environ : gmap string Z) (user_id : string) : M LimitResult :=
  '(is_exceeded, token_type, period, usage_data) ← is_limit_exceeded self user_id;
  if is_exceeded : bool then mret (true, token_type, period, usage_data)
  else
    let daily_output_limit := environ_get_int environ "DAILY_OUTPUT_LIMIT" 20000 in
    let reservation_amount := reservation_amount_of daily_output_limit in
    total_reserved ←
      TokenReservationManager.get_total_reserved_tokens
        (reservation_manager self) user_id;
    let current_daily_output := dict_get usage_data "daily_output_tokens" in
    let total_with_new_reservation :=
      current_daily_output + total_reserved + reservation_amount in
    let usage_data :=
      <["total_with_reservation" := total_with_new_reservation]>
        (<["new_reservation_amount" := reservation_amount]>
           (<["total_reserved_tokens" := total_reserved]> usage_data)) in
    if daily_output_limit <? total_with_new_reservation then
      mret (true, Some "output", Some "daily", usage_data)
    else mret (false, None, None, usage_data).

Definition create_reservation (self : t) (environ : gmap string Z)
    (user_id : string) : M (option string) :=
  '(is_exceeded, token_type, period, usage_data) ←
    is_limit_exceeded_with_reservation self environ user_id;
  if is_exceeded : bool then mret None
  else TokenReservationManager.create_reservation
         (reservation_manager self) environ user_id.

Definition remove_reservation (self : t) (user_id reservation_id : string) : M bool :=
  TokenReservationManager.remove_reservation
    (reservation_manager self) user_id reservation_id.

(** The dict comprehension [{meter.name: meter.period_config["input_limit"]
    for meter in self.meters}]: a later meter of the same name wins. *)
Definition get_meter_limits (self : t) : gmap string Z :=
  foldl
    (λ limits meter,
       <[name (TokenMeter.period_config meter) :=
           input_limit (TokenMeter.period_config meter)]> limits)
    ∅ (meters self).

End TokenLimiter.

(* ===================================================================== *)
(** ** The admission path of [lambda_handler]                            *)
(* ===================================================================== *)

(** [str(x)] inside an f-string, for an optional string. *)
Definition py_str (x : option string) : string := default "None" x.

(** [send_error_event] without [conversation_id]: the event is published. *)
Definition send_error_event (error_type message : string) (details : option Details)
  : M unit :=
  publish_to_channel
    {| error_type := error_type; message := message; details := details |}.

(** [lambda_handler], for an event the channel authorisation accepted for
    user [sub] ([token_limiter] is the module's limiter).  The loop over the
    incoming events, which runs only once a reservation is held, is the
    parameter [process_events]; it receives the usage read at admission and
    the reservation id. *)
Definition lambda_handler (token_limiter : TokenLimiter.t)
    (environ : gmap string Z) (sub : string)
    (process_events : gmap string Z → string → M unit) : M unit :=
  (* the [try] body up to the assignment of [reservation_id] *)
  let admission : M (option (gmap string Z * string)) :=
    '(is_exceeded, token_type, period, token_usage) ←
      TokenLimiter.is_limit_exceeded token_limiter sub;
    if is_exceeded : bool then
      publish_to_channel
        {| error_type := "token_limit_exceeded";
           message := "You have exceeded your " +:+ py_str period +:+ " "
                      +:+ py_str token_type +:+ " token limit.";
           details := Some (LimitDetails token_type period token_usage) |};;
      mret None
    else
      reservation_id ← TokenLimiter.create_reservation token_limiter environ sub;
      match reservation_id with
      | None =>
          send_error_event "reservation_failed"
            "Request denied to prevent exceeding daily output token limits due to concurrent usage."
            (Some (LimitDetails (Some "output") (Some "daily") token_usage));;
          mret None
      | Some reservation_id => mret (Some (token_usage, reservation_id))
      end in
  let internal_server_error : exn → M unit :=
    λ e, try_except
           (send_error_event "internal_server_error"
              "An unexpected error occurred while processing your request"
              (Some (ErrorDetails e)))
           (λ _, mret tt) in
  held ← try_except admission (λ e, internal_server_error e;; mret None);
  match held with
  | None => mret tt
  | Some (token_usage, reservation_id) =>
      try_except (process_events token_usage reservation_id) internal_server_error;;
      (* finally: the reservation is released *)
      TokenLimiter.remove_reservation token_limiter sub reservation_id;;
      mret tt
  end.

(* ===================================================================== *)
(** ** Channel authorisation ([auth.py], [subscribe_handler.py])         *)
(* ===================================================================== *)

(** What the authorisation reads of the event: [info.channel.segments] and
    [identity.sub], each [None] when a key on the way is missing. *)
Record AuthEvent := {
  segments : option (list string);
  sub : option string
}.

(** The tuple [validate_channel_auth] returns: of three components, or of
    four when [return_error_message] is set. *)
Inductive AuthResult :=
  | Auth3 (is_authorized : bool) (sub path : option string)
  | Auth4 (is_authorized : bool) (sub path error_message : option string).

(** [sep.join(parts)]. *)
Definition py_join (sep : string) (parts : list string) : string :=
  String.concat sep parts.

(** [s.split(sep)] for a separator of one character. *)
Fixpoint py_split (sep : ascii) (s : string) : list string :=
  match s with
  | EmptyString => [EmptyString]
  | String c rest =>
      if Ascii.eqb c sep then EmptyString :: py_split sep rest
      else match py_split sep rest with
           | piece :: pieces => String c piece :: pieces
           | [] => [String c EmptyString]
           end
  end.

Definition validate_channel_auth (event : AuthEvent) (return_error_message : bool)
  : AuthResult :=
  let sub := sub event in
  match segments event with
  | Some (segment0 :: segment1 :: rest) =>
      if negb (bool_decide (sub = Some segment1)) then
        if return_error_message then Auth4 false sub None (Some "Unauthorized")
        else Auth3 false sub None
      else
        let path := py_join "/" (segment1 :: rest) in
        if return_error_message then Auth4 true sub (Some path) None
        else Auth3 true sub (Some path)
  | _ =>
      (* [not segments or len(segments) < 2] *)
      if return_error_message
      then Auth4 false sub None (Some "No segments found in channel path")
      else Auth3 false sub None
  end.

Module subscribe_handler.

(** The subscription handler returns the error message, [None] to allow. *)
Definition lambda_handler (event : AuthEvent) : option string :=
  match validate_channel_auth event true with
  | Auth4 _ _ _ error_message => error_message
  | Auth3 _ _ _ => None
  end.

End subscribe_handler.

(** The user [process_message] charges: the first segment of the path, and
    none (the message is dropped) when that segment is empty. *)
Definition process_message_user_id (path : string) : option string :=
  match py_split "/" path with
  | path_segment0 :: _ =>
      if bool_decide (path_segment0 = EmptyString) then None else Some path_segment0
  | [] => None
  end.

(* ===================================================================== *)
(** ** [class MessageTracker] ([messages.py])                            *)
(* ===================================================================== *)

(** What the tracker reads of a stream event: the [inputTokens] and
    [outputTokens] of [metadata.usage] when the event has both keys
    [metadata] and [usage], and the [text] of [contentBlockDelta.delta]
    when the event has these keys. *)
Record StreamEvent := {
  metadata_usage : option (option Z * option Z);
  content_block_delta_text : option string
}.

Module MessageTracker.

Record t := {
  user_id : string;
  conversation_id : string;
  user_message : string;
  assistant_response : string;
  input_tokens : Z;
  output_tokens : Z;
  metadata_processed : bool;
  model_id : string
}.

Definition init (user_id conversation_id user_message model_id : string) : t :=
  {| user_id := user_id; conversation_id := conversation_id;
     user_message := user_message; assistant_response := "";
     input_tokens := 0; output_tokens := 0; metadata_processed := false;
     model_id := model_id |}.

(** [log_completion] reads the clock; what it writes goes to the log and to
    Firehose, whose failure it catches. *)
Definition log_completion (self : t) : M unit :=
  _ ← now; mret tt.

(** The method returns its answer; the tracker it leaves is returned with
    it. *)
Definition process_stream_event (self : t) (stream_event : StreamEvent)
  : M (bool * t) :=
  match metadata_usage stream_event, metadata_processed self with
  | Some usage, false =>
      let self :=
        {| user_id := user_id self; conversation_id := conversation_id self;
           user_message := user_message self;
           assistant_response := assistant_response self;
           input_tokens := default 0 usage.1;
           output_tokens := default 0 usage.2;
           metadata_processed := true;
           model_id := model_id self |} in
      log_completion self;;
      mret (true, self)
  | _, _ =>
      let self :=
        match content_block_delta_text stream_event with
        | Some text =>
            {| user_id := user_id self; conversation_id := conversation_id self;
               user_message := user_message self;
               assistant_response := assistant_response self +:+ text;
               input_tokens := input_tokens self;
               output_tokens := output_tokens self;
               metadata_processed := metadata_processed self;
               model_id := model_id self |}
        | None => self
        end in
      mret (false, self)
  end.

End MessageTracker.

(** The answers of a tracker to the events of a stream, in order, and the
    tracker at the end of the stream: the calls the loop of
    [process_message] makes on its tracker. *)
Fixpoint process_stream (tracker : MessageTracker.t) (stream : list StreamEvent)
  : M (list bool * MessageTracker.t) :=
  match stream with
  | [] => mret ([], tracker)
  | stream_event :: rest =>
      '(is_metadata, tracker) ← MessageTracker.process_stream_event tracker stream_event;
      '(answers, tracker) ← process_stream tracker rest;
      mret (is_metadata :: answers, tracker)
  end.

(** The text of the deltas of a stream. *)
Definition delta_texts (stream : list StreamEvent) : string :=
  foldr (λ stream_event text,
           default "" (content_block_delta_text stream_event) +:+ text)
        "" stream.

(* ===================================================================== *)
(** ** Notions used in the statements                                    *)
(* ===================================================================== *)

Definition zero_usage : Usage := {| input_tokens := 0; output_tokens := 0 |}.

(** The client method a meter reads its usage with. *)
Definition read_method (cfg : PeriodConfig) : Method :=
  if aggregate cfg then Query else GetItem.

(** The key condition of the query an aggregating meter issues at [now]. *)
Definition usage_condition (cfg : PeriodConfig) (now : datetime) : KeyCondition :=
  match query_window cfg with
  | Some window =>
      if window =? 0 then BeginsWith (prefix cfg)
      else Between
             (prefix cfg +:+ strftime "%Y-%m-%d:%H:%M" (datetime_sub now window))
             (prefix cfg +:+ strftime "%Y-%m-%d:%H:%M" now)
  | None => BeginsWith (prefix cfg)
  end.

(** The bucket [update_usage] writes to at [now], and the TTL it computes. *)
Definition bucket_id (cfg : PeriodConfig) (now : datetime) : string :=
  id_format cfg (round_time cfg now).

Definition ttl_at (cfg : PeriodConfig) (now : datetime) : Z :=
  int_timestamp
    (datetime_add now
       match ttl_delta cfg with
       | CallableDelta f => f now
       | FixedDelta d => d
       end).

(** A counter of a bucket as a reader sees it: 0 when the record or the
    attribute is missing. *)
Definition counter (t : gmap (string * string) (gmap string AttributeValue))
    (key : string * string) (attr : string) : Z :=
  attr_N (default ∅ (t !! key)) attr.

(** A sequence of [update_usage] calls, by any meters for any users. *)
Fixpoint record_calls (calls : list (TokenMeter.t * string * Z * Z)) : M unit :=
  match calls with
  | [] => mret tt
  | (meter, user_id, input_tokens, output_tokens) :: rest =>
      TokenMeter.update_usage meter user_id input_tokens output_tokens;;
      record_calls rest
  end.

(** The UpdateExpression of [update_usage]. *)
Definition usage_actions (cfg : PeriodConfig) (now : datetime)
    (input_tokens output_tokens : Z) : list UpdateAction :=
  [ADD "input_tokens" input_tokens;
   ADD "output_tokens" output_tokens;
   SET_if_not_exists "timestamp" (AttrN (int_timestamp now));
   SET "ttl" (AttrN (ttl_at cfg now))].

(** The sort-key prefix of the reservations made on the day of [now]. *)
Definition reservation_prefix (now : datetime) : string :=
  "reservation:daily:" +:+ strftime "%Y-%m-%d" now +:+ ":".

(** The sum of [output_tokens] over the records of the table that [keep]
    retains. *)
Definition sum_output_tokens
    (keep : string * string → gmap string AttributeValue → bool)
    (t : gmap (string * string) (gmap string AttributeValue)) : Z :=
  map_fold
    (λ key item acc, if keep key item then attr_N item "output_tokens" + acc else acc)
    0 t.

(** The records of [user_id] that are reservations dated the day of [now]. *)
Definition todays_reservation (user_id : string) (now : datetime)
    (key : string * string) (item : gmap string AttributeValue) : bool :=
  bool_decide (key.1 = user_id) && String.prefix (reservation_prefix now) key.2.

(** A record whose TTL has elapsed at [now], by the test of
    [cleanup_expired_reservations]. *)
Definition expired (now : datetime) (item : gmap string AttributeValue) : bool :=
  let ttl_value := attr_N item "ttl" in
  (0 <? ttl_value) && (ttl_value <? int_timestamp now).

(** The total the specification describes: today's reservations of the user
    whose TTL has not elapsed. *)
Definition spec_total_reserved
    (t : gmap (string * string) (gmap string AttributeValue))
    (user_id : string) (now : datetime) : Z :=
  sum_output_tokens
    (λ key item, todays_reservation user_id now key item && negb (expired now item)) t.

(** [w'] comes from [w] by reading: the clock may have advanced and read
    calls may have been made, but the table, the published events and the
    outcome of the write calls to come are those of [w]. *)
Definition only_read (w w' : World) : Prop :=
  table w' = table w ∧ outbox w' = outbox w ∧
  ∀ m k, m ≠ Query → m ≠ GetItem → faults w' m k = faults w m k.

(** The [reservation_failed] event of [lambda_handler]. *)
Definition reservation_failed_event (token_usage : gmap string Z) : Event :=
  {| error_type := "reservation_failed";
     message := "Request denied to prevent exceeding daily output token limits due to concurrent usage.";
     details := Some (LimitDetails (Some "output") (Some "daily") token_usage) |}.

(** The identifier and the record of the reservation that
    [TokenReservationManager.create_reservation] writes in world [w]. *)
Definition new_reservation_id (w : World) : string :=
  "reservation:daily:" +:+ strftime "%Y-%m-%d" (clock w 0%nat) +:+ ":" +:+ uuids w 0%nat.

Definition new_reservation_item (self : TokenReservationManager.t)
    (environ : gmap string Z) (user_id : string) (w : World)
  : gmap string AttributeValue :=
  let now := clock w 0%nat in
  <["user_id" := AttrS user_id]>
  (<["period_id" := AttrS (new_reservation_id w)]>
   (<["input_tokens" := AttrN 0]>
    (<["output_tokens" :=
         AttrN (reservation_amount_of (environ_get_int environ "DAILY_OUTPUT_LIMIT" 20000))]>
     (<["timestamp" := AttrN (int_timestamp now)]>
      (<["ttl" :=
           AttrN (int_timestamp
                    (datetime_add now
                       (timedelta_of 0 (TokenReservationManager.reservation_ttl_minutes self))))]>
         ∅))))).

(** What [TokenLimiter.is_limit_exceeded] learns from one meter. *)
Record Observation := {
  obs_meter : TokenMeter.t;
  obs_exceeded : bool;
  obs_token_type : option string;
  obs_usage : Usage
}.

(** The meters a limit check reads, in list order, each with its answer:
    those up to and including the first one that reports an excess. *)
Fixpoint observations (meters : list TokenMeter.t) (user_id : string)
  : M (list Observation) :=
  match meters with
  | [] => mret []
  | meter :: rest =>
      '(is_exceeded, token_type, usage) ← TokenMeter.is_limit_exceeded meter user_id;
      let o := {| obs_meter := meter; obs_exceeded := is_exceeded;
                  obs_token_type := token_type; obs_usage := usage |} in
      if is_exceeded : bool then mret [o]
      else (obs ← observations rest user_id; mret (o :: obs))
  end.

(** The verdict that follows from the observations: that of the last meter
    read when it reports an excess. *)
Definition verdict (obs : list Observation) : bool * option string * option string :=
  match last obs with
  | Some o =>
      if obs_exceeded o
      then (true, obs_token_type o,
            Some (description (TokenMeter.period_config (obs_meter o))))
      else (false, None, None)
  | None => (false, None, None)
  end.

(** The largest of 0 and the given values. *)
Definition observed_max (values : list Z) : Z := foldr Z.max 0 values.

(** The value [f] takes on the usage of the last observed meter called
    [meter_name]; 0 when no such meter was read. *)
Definition observed_last (meter_name : string) (f : Usage → Z)
    (obs : list Observation) : Z :=
  default 0
    (f ∘ obs_usage <$>
       last (filter (λ o, name (TokenMeter.period_config (obs_meter o)) = meter_name) obs)).

(** The step of [TokenLimiter.is_limit_exceeded] for one observation. *)
Definition record_observation (total_usage : gmap string Z) (o : Observation)
  : gmap string Z :=
  TokenLimiter.record_meter
    (name (TokenMeter.period_config (obs_meter o))) (obs_usage o) total_usage.

(** The reservation [get_active_reservations] builds from a record. *)
Definition reservation_of (kv : string * string * gmap string AttributeValue)
  : TokenReservationManager.Reservation :=
  {| TokenReservationManager.reservation_id := kv.1.2;
     TokenReservationManager.output_tokens := attr_N kv.2 "output_tokens";
     TokenReservationManager.timestamp := attr_N kv.2 "timestamp" |}.


(** The records a sweep for [user_id] at [now] removes: the user's
    reservations, of any day, whose TTL has elapsed. *)
Definition swept (user_id : string) (now : datetime)
    (key : string * string) (item : gmap string AttributeValue) : bool :=
  bool_decide (key.1 = user_id) && String.prefix "reservation:" key.2
  && expired now item.

(** The three period configurations the module provides. *)
Definition standard_period (cfg : PeriodConfig) : Prop :=
  ∃ environ input_limit output_limit,
    cfg = create_ten_minute_period environ input_limit output_limit ∨
    cfg = create_monthly_period environ input_limit output_limit ∨
    cfg = create_hourly_period environ input_limit output_limit.

(** The results of [update_usage] on each meter in turn. *)
Fixpoint meter_results (meters : list TokenMeter.t) (user_id : string)
    (input_tokens output_tokens : Z) : M (list bool) :=
  match meters with
  | [] => mret []
  | meter :: rest =>
      ok ← TokenMeter.update_usage meter user_id input_tokens output_tokens;
      oks ← meter_results rest user_id input_tokens output_tokens;
      mret (ok :: oks)
  end.

(** A time of day as [datetime] admits it. *)
Definition valid_time (dt : datetime) : Prop :=
  0 ≤ hour dt < 24 ∧ 0 ≤ minute dt < 60 ∧ 0 ≤ second dt < 60
  ∧ 0 ≤ microsecond dt < 1000000.

(** The length of the buckets of a standard period, the longest month for
    the monthly one. *)
Definition bucket_length (cfg : PeriodConfig) : timedelta :=
  if decide (name cfg = "10min") then timedelta_of 0 10
  else if decide (name cfg = "hourly") then timedelta_of 0 60
  else timedelta_of 31 0.

(** [sep in s]. *)
Fixpoint has_char (sep : ascii) (s : string) : bool :=
  match s with
  | EmptyString => false
  | String c rest => Ascii.eqb c sep || has_char sep rest
  end.

(* ===================================================================== *)
(** ** Sample data                                                       *)
(* ===================================================================== *)

(** 2025-01-08 10:25:30.123456, and two later moments of the same day. *)
Definition jan8 : datetime := mk_datetime 2025 1 8 10 25 30 123456.
Definition jan8_1027 : datetime := mk_datetime 2025 1 8 10 27 0 0.
Definition jan8_1100 : datetime := mk_datetime 2025 1 8 11 0 0 0.

(** A world whose clock reads [first] and then [later], and whose store
    never fails. *)
Definition world_at (first later : datetime)
    (t : gmap (string * string) (gmap string AttributeValue)) : World :=
  {| table := t;
     clock := λ n, match n with O => first | S _ => later end;
     uuids := λ _, "4f1c";
     faults := λ _ _, false;
     outbox := [] |}.

(** The same world with a store whose every call fails. *)
Definition store_down (w : World) : World :=
  {| table := table w; clock := clock w; uuids := uuids w;
     faults := λ _ _, true; outbox := outbox w |}.

Definition usage_record (input_tokens output_tokens : Z) : gmap string AttributeValue :=
  {[ "input_tokens" := AttrN input_tokens; "output_tokens" := AttrN output_tokens ]}.

Definition reservation_record (reserved ttl : Z) : gmap string AttributeValue :=
  {[ "input_tokens" := AttrN 0; "output_tokens" := AttrN reserved; "ttl" := AttrN ttl ]}.

(** The limiter of the handler module and its two meters, with no variable
    set in the environment. *)
Definition default_limiter : TokenLimiter.t := TokenLimiter.init ∅ None.

Definition daily_meter : TokenMeter.t :=
  {| TokenMeter.period_config := create_ten_minute_period ∅ None None |}.

Definition monthly_meter : TokenMeter.t :=
  {| TokenMeter.period_config := create_monthly_period ∅ None None |}.

(** Two reservations of alice, made on 2025-01-08 and still alive. *)
Definition two_reservations : gmap (string * string) (gmap string AttributeValue) :=
  {[ ("alice", "reservation:daily:2025-01-08:a1") := reservation_record 10000 1736332530;
     ("alice", "reservation:daily:2025-01-08:b2") := reservation_record 10000 1736332531 ]}.

(** One reservation of alice whose TTL (10:35:30) has elapsed by 11:00. *)
Definition stale_reservation : gmap (string * string) (gmap string AttributeValue) :=
  {[ ("alice", "reservation:daily:2025-01-08:a1") := reservation_record 10000 1736332530 ]}.

(** Usage recorded at 10:05 in the bucket of 10:00. *)
Definition earlier_bucket : gmap (string * string) (gmap string AttributeValue) :=
  {[ ("alice", "10min:2025-01-08:10:00") := usage_record 500 700 ]}.

(** A daily bucket at its input limit and a monthly bucket well above it. *)
Definition daily_exhausted : gmap (string * string) (gmap string AttributeValue) :=
  {[ ("alice", "10min:2025-01-08:10:20") := usage_record 10000 500;
     ("alice", "monthly:2025-01") := usage_record 50000 800 ]}.


(** A record call whose token counts are not negative. *)
Definition nonnegative_call (call : TokenMeter.t * string * Z * Z) : Prop :=
  0 ≤ call.1.2 ∧ 0 ≤ call.2.

(** One expired reservation, one live one and a usage bucket of alice. *)
Definition mixed_records : gmap (string * string) (gmap string AttributeValue) :=
  {[ ("alice", "reservation:daily:2025-01-08:a1") := reservation_record 10000 1736332530;
     ("alice", "reservation:daily:2025-01-08:b2") := reservation_record 10000 1736334600;
     ("alice", "10min:2025-01-08:10:00") := usage_record 500 700 ]}.

(* ===================================================================== *)
(** * Properties                                                         *)
(* ===================================================================== *)

(** ** Running the monad *)

Ltac run_M :=
  unfold try_except, now, uuid4, query, get_item, put_item, delete_item,
    update_item, client_call, read_table, write_table, raise,
    mbind, M_bind, bind, mret, M_ret, ret in *.

(** ** One meter: reading the usage *)

Lemma get_usage_run self user_id w :
  let cfg := TokenMeter.period_config self in
  TokenMeter._get_usage self user_id w =
    (Ok (if faults w (read_method cfg) 0%nat then zero_usage
         else if aggregate cfg then
           TokenMeter._sum_period_usage
             ((λ kv, with_key kv.1 kv.2) <$>
                map_to_list (selected user_id (usage_condition cfg (clock w 0%nat)) (table w)))
         else
           let item := default ∅ (with_key (user_id, id_format cfg (clock w 0%nat)) <$>
                         table w !! (user_id, id_format cfg (clock w 0%nat))) in
           {| input_tokens := attr_N item "input_tokens";
              output_tokens := attr_N item "output_tokens" |}),
     consume_fault (read_method cfg) (advance_clock w)).
Proof.
  unfold TokenMeter._get_usage, read_method, usage_condition. run_M.
  destruct (aggregate _); [destruct (query_window _) as [window|]; [destruct (window =? 0)|]|];
    cbn; destruct (faults w _ 0%nat); reflexivity.
Qed.

Lemma meter_is_limit_exceeded_run self user_id w :
  TokenMeter.is_limit_exceeded self user_id w =
    let cfg := TokenMeter.period_config self in
    let '(r, w') := TokenMeter._get_usage self user_id w in
    match r with
    | Ok usage =>
      (Ok (if input_limit cfg <=? input_tokens usage then (true, Some "input", usage)
           else if output_limit cfg <=? output_tokens usage then (true, Some "output", usage)
           else (false, None, usage)), w')
    | Raise e => (Raise e, w')
    end.
Proof.
  unfold TokenMeter.is_limit_exceeded. run_M.
  destruct (TokenMeter._get_usage self user_id w) as [[usage|e] w']; [|done].
  repeat case_match; done.
Qed.

(** ** One meter: recording usage *)

Lemma update_usage_run self user_id i o w :
  let cfg := TokenMeter.period_config self in
  let now := clock w 0%nat in
  let key := (user_id, bucket_id cfg now) in
  let old := default ∅ (table w !! key) in
  let w1 := consume_fault UpdateItem (advance_clock w) in
  TokenMeter.update_usage self user_id i o w =
    if faults w UpdateItem 0%nat then (Ok false, w1)
    else match fold_left (apply_action old) (usage_actions cfg now i o) (Some old) with
         | Some item => (Ok true, set_table (<[key := item]> (table w)) w1)
         | None => (Ok false, w1)
         end.
Proof.
  intros cfg now0 key old w1.
  unfold TokenMeter.update_usage. run_M. cbn -[fold_left apply_action].
  destruct (faults w UpdateItem 0%nat); [done|].
  fold cfg. unfold usage_actions, ttl_at, bucket_id. fold now0 key old.
  by destruct (fold_left _ _ _).
Qed.

Lemma usage_actions_Some cfg now i o old item :
  fold_left (apply_action old) (usage_actions cfg now i o) (Some old) = Some item →
  item !! "input_tokens" = Some (AttrN (attr_N old "input_tokens" + i)) ∧
  item !! "output_tokens" = Some (AttrN (attr_N old "output_tokens" + o)) ∧
  item !! "timestamp" = Some (default (AttrN (int_timestamp now)) (old !! "timestamp")) ∧
  item !! "ttl" = Some (AttrN (ttl_at cfg now)) ∧
  (∀ attr, attr ∉ ["input_tokens"; "output_tokens"; "timestamp"; "ttl"] →
           item !! attr = old !! attr).
Proof.
  unfold usage_actions, attr_N.
  destruct (old !! "input_tokens") as [[s1|n1]|] eqn:E1;
  destruct (old !! "output_tokens") as [[s2|n2]|] eqn:E2;
  destruct (old !! "timestamp") as [ts|] eqn:E3;
  cbn; rewrite ?E1; cbn; rewrite ?E2; cbn; rewrite ?E3; cbn;
  intros [= <-].
  all: split_and!.
  all: try (by simplify_map_eq).
  all: intros attr Hattr; rewrite ?lookup_insert_ne; try done.
  all: intros <-; apply Hattr; set_solver.
Qed.

Lemma update_usage_total self user_id i o w :
  ∃ ok w', TokenMeter.update_usage self user_id i o w = (Ok ok, w').
Proof.
  rewrite update_usage_run. repeat case_match; eauto.
Qed.

Lemma counter_update_usage self user_id i o w key attr :
  0 ≤ i → 0 ≤ o → attr = "input_tokens" ∨ attr = "output_tokens" →
  counter (table w) key attr
  ≤ counter (table (TokenMeter.update_usage self user_id i o w).2) key attr.
Proof.
  intros Hi Ho Hattr. rewrite update_usage_run.
  destruct (faults w UpdateItem 0%nat); [done|].
  destruct (fold_left _ _ _) as [item|] eqn:Hfold; [|done].
  cbn. unfold counter.
  destruct (decide (key = (user_id, bucket_id (TokenMeter.period_config self) (clock w 0%nat))))
    as [->|Hne].
  - rewrite lookup_insert_eq. cbn.
    apply usage_actions_Some in Hfold as (Hin & Hout & _).
    destruct Hattr as [-> | ->]; unfold attr_N at 2.
    + rewrite Hin. lia.
    + rewrite Hout. lia.
  - by rewrite lookup_insert_ne.
Qed.

Lemma with_key_period_id k item : with_key k item !! "period_id" = Some (AttrS k.2).
Proof. unfold with_key. by rewrite lookup_insert_ne, lookup_insert_eq. Qed.

Lemma attr_N_with_key k item attr :
  attr ≠ "user_id" → attr ≠ "period_id" → attr_N (with_key k item) attr = attr_N item attr.
Proof.
  intros H1 H2. unfold attr_N, with_key. by rewrite !lookup_insert_ne.
Qed.

Lemma reservations_of_with_key (l : list (string * string * gmap string AttributeValue)) acc w :
  TokenReservationManager.reservations_of ((λ kv, with_key kv.1 kv.2) <$> l) acc w
  = (Ok (acc ++ (reservation_of <$> l)), w).
Proof.
  revert acc. induction l as [|kv l IH]; intros acc; cbn.
  - by rewrite app_nil_r.
  - rewrite with_key_period_id, IH, <- app_assoc. cbn.
    by rewrite !attr_N_with_key.
Qed.

Lemma sum_permutation (l1 l2 : list Z) :
  l1 ≡ₚ l2 → foldr Z.add 0 l1 = foldr Z.add 0 l2.
Proof. induction 1; cbn; lia. Qed.

Lemma sum_selected user_id now t :
  foldr Z.add 0 ((λ kv, attr_N kv.2 "output_tokens") <$>
                   map_to_list (selected user_id (BeginsWith (reservation_prefix now)) t))
  = sum_output_tokens (todays_reservation user_id now) t.
Proof.
  unfold sum_output_tokens, selected.
  induction t as [|key item t Hnone IH] using map_ind.
  - by rewrite map_filter_empty, map_to_list_empty, map_fold_empty.
  - rewrite map_fold_insert_L; [| intros; repeat case_match; lia | done].
    rewrite <- IH. unfold todays_reservation at 1.
    destruct (decide (key.1 = user_id ∧ key_matches (BeginsWith (reservation_prefix now)) key.2 = true))
      as [[Hu Hp]|Hno].
    + rewrite map_filter_insert_True by done.
      erewrite sum_permutation;
        [| apply fmap_Permutation, map_to_list_insert;
           by rewrite map_lookup_filter_None; left].
      cbn in Hp. rewrite bool_decide_eq_true_2, Hp by done. done.
    + rewrite map_filter_insert_not by (by intros ?).
      cbn in Hno.
      destruct (bool_decide_reflect (key.1 = user_id)); cbn; [|done].
      destruct (String.prefix _ _); [|done]. by destruct Hno.
Qed.
(** ** Reading leaves the table alone *)

Lemma only_read_refl w : only_read w w.
Proof. done. Qed.

Lemma only_read_trans w1 w2 w3 : only_read w1 w2 → only_read w2 w3 → only_read w1 w3.
Proof.
  intros (Ht1 & Ho1 & Hf1) (Ht2 & Ho2 & Hf2). split_and!; [congruence..|].
  intros m k ??. by rewrite Hf2, Hf1.
Qed.

Lemma only_read_step m w :
  m = Query ∨ m = GetItem → only_read w (consume_fault m (advance_clock w)).
Proof.
  intros Hm. split_and!; [done..|]. intros m' k ??. cbn.
  destruct (decide (m' = m)); [|done]. destruct Hm; congruence.
Qed.

Lemma get_usage_only_read self user_id w :
  only_read w (TokenMeter._get_usage self user_id w).2.
Proof.
  rewrite get_usage_run. apply only_read_step.
  unfold read_method. destruct (aggregate _); auto.
Qed.

Lemma meter_is_limit_exceeded_total self user_id w :
  ∃ r, TokenMeter.is_limit_exceeded self user_id w
       = (Ok r, consume_fault (read_method (TokenMeter.period_config self)) (advance_clock w)).
Proof.
  rewrite meter_is_limit_exceeded_run, get_usage_run. cbn. eauto.
Qed.

Lemma meter_is_limit_exceeded_only_read self user_id w :
  only_read w (TokenMeter.is_limit_exceeded self user_id w).2.
Proof.
  destruct (meter_is_limit_exceeded_total self user_id w) as [r ->].
  apply only_read_step. unfold read_method. destruct (aggregate _); auto.
Qed.

Lemma check_meters_total meters user_id total_usage w :
  ∃ r w', TokenLimiter.check_meters meters user_id total_usage w = (Ok r, w')
          ∧ only_read w w'.
Proof.
  revert total_usage w. induction meters as [|meter rest IH]; intros total_usage w; cbn.
  - eauto using only_read_refl.
  - unfold mbind, M_bind, bind.
    pose proof (meter_is_limit_exceeded_only_read meter user_id w) as Hread.
    destruct (meter_is_limit_exceeded_total meter user_id w) as [[[ex kind] usage] Hrun].
    rewrite Hrun in *. cbn in Hread. destruct ex.
    + eauto.
    + destruct (IH (TokenLimiter.record_meter (name (TokenMeter.period_config meter)) usage total_usage)
                  (consume_fault (read_method (TokenMeter.period_config meter)) (advance_clock w)))
        as (r & w' & -> & Hread').
      eauto using only_read_trans.
Qed.

Lemma get_active_reservations_run self user_id w :
  TokenReservationManager.get_active_reservations self user_id w =
    (Ok (if faults w Query 0%nat then []
         else reservation_of <$>
                map_to_list (selected user_id (BeginsWith (reservation_prefix (clock w 0%nat)))
                               (table w))),
     consume_fault Query (advance_clock w)).
Proof.
  unfold TokenReservationManager.get_active_reservations. run_M. cbn.
  destruct (faults w Query 0%nat); [done|].
  by rewrite reservations_of_with_key.
Qed.

Lemma get_total_reserved_tokens_run self user_id w :
  TokenReservationManager.get_total_reserved_tokens self user_id w =
    (Ok (if faults w Query 0%nat then 0
         else sum_output_tokens (todays_reservation user_id (clock w 0%nat)) (table w)),
     consume_fault Query (advance_clock w)).
Proof.
  unfold TokenReservationManager.get_total_reserved_tokens, mbind, M_bind, bind.
  rewrite get_active_reservations_run. cbn.
  destruct (faults w Query 0%nat); [done|].
  by rewrite <- sum_selected, <- list_fmap_compose.
Qed.
(** ** The limiter with reservations *)

Lemma with_reservation_run self environ user_id w :
  TokenLimiter.is_limit_exceeded_with_reservation self environ user_id w =
    match TokenLimiter.is_limit_exceeded self user_id w with
    | (Ok (true, token_type, period, usage_data), w1) =>
        (Ok (true, token_type, period, usage_data), w1)
    | (Ok (false, _, _, usage_data), w1) =>
        match TokenReservationManager.get_total_reserved_tokens
                (TokenLimiter.reservation_manager self) user_id w1 with
        | (Ok total_reserved, w2) =>
            let limit := environ_get_int environ "DAILY_OUTPUT_LIMIT" 20000 in
            let amount := reservation_amount_of limit in
            let total := dict_get usage_data "daily_output_tokens" + total_reserved + amount in
            let usage_data :=
              <["total_with_reservation" := total]>
                (<["new_reservation_amount" := amount]>
                   (<["total_reserved_tokens" := total_reserved]> usage_data)) in
            (Ok (if limit <? total then (true, Some "output", Some "daily", usage_data)
                 else (false, None, None, usage_data)), w2)
        | (Raise e, w2) => (Raise e, w2)
        end
    | (Raise e, w1) => (Raise e, w1)
    end.
Proof.
  unfold TokenLimiter.is_limit_exceeded_with_reservation, mbind, M_bind, bind.
  destruct (TokenLimiter.is_limit_exceeded self user_id w)
    as [[[[[[] token_type] period] usage_data]|e] w1]; [done| |done].
  unfold mret, M_ret, ret.
  destruct (TokenReservationManager.get_total_reserved_tokens _ _ _) as [[total|e] w2]; [|done].
  by destruct (_ <? _).
Qed.

Lemma create_reservation_run self environ user_id w :
  TokenLimiter.create_reservation self environ user_id w =
    match TokenLimiter.is_limit_exceeded_with_reservation self environ user_id w with
    | (Ok (true, _, _, _), w1) => (Ok None, w1)
    | (Ok (false, _, _, _), w1) =>
        TokenReservationManager.create_reservation
          (TokenLimiter.reservation_manager self) environ user_id w1
    | (Raise e, w1) => (Raise e, w1)
    end.
Proof.
  unfold TokenLimiter.create_reservation, mbind, M_bind, bind.
  by destruct (TokenLimiter.is_limit_exceeded_with_reservation self environ user_id w)
    as [[[[[[] token_type] period] usage_data]|e] w1].
Qed.

Lemma lambda_handler_denied token_limiter environ sub process_events w token_type period
    token_usage w1 w2 :
  TokenLimiter.is_limit_exceeded token_limiter sub w
    = (Ok (false, token_type, period, token_usage), w1) →
  TokenLimiter.create_reservation token_limiter environ sub w1 = (Ok None, w2) →
  lambda_handler token_limiter environ sub process_events w
    = (Ok tt, push_event (reservation_failed_event token_usage) w2).
Proof.
  intros Hcheck Hcreate.
  unfold lambda_handler, try_except, mbind, M_bind, bind.
  rewrite Hcheck, Hcreate. reflexivity.
Qed.

Lemma manager_create_reservation_run self environ user_id w :
  TokenReservationManager.create_reservation self environ user_id w =
    let w1 := consume_fault PutItem (advance_clock (advance_uuids w)) in
    if faults w PutItem 0%nat then (Ok None, w1)
    else (Ok (Some (new_reservation_id w)),
          set_table (<[(user_id, new_reservation_id w) :=
                         new_reservation_item self environ user_id w]> (table w)) w1).
Proof.
  unfold TokenReservationManager.create_reservation. run_M. cbn.
  destruct (faults w PutItem 0%nat); [done|].
  rewrite lookup_insert_eq, lookup_insert_ne, lookup_insert_eq by done.
  reflexivity.
Qed.

Lemma limiter_is_limit_exceeded_total self user_id w :
  ∃ r w', TokenLimiter.is_limit_exceeded self user_id w = (Ok r, w') ∧ only_read w w'.
Proof. apply check_meters_total. Qed.

Lemma with_reservation_total self environ user_id w :
  ∃ r w', TokenLimiter.is_limit_exceeded_with_reservation self environ user_id w = (Ok r, w')
          ∧ only_read w w'.
Proof.
  rewrite with_reservation_run.
  destruct (limiter_is_limit_exceeded_total self user_id w)
    as ([[[[] token_type] period] usage_data] & w1 & -> & Hread); [eauto|].
  rewrite get_total_reserved_tokens_run. cbn zeta.
  eexists _, _. split; [reflexivity|].
  eapply only_read_trans; [done|]. apply only_read_step. auto.
Qed.

Lemma limiter_create_reservation_put_fails self environ user_id w :
  faults w PutItem 0%nat = true →
  ∃ w', TokenLimiter.create_reservation self environ user_id w = (Ok None, w')
        ∧ table w' = table w ∧ outbox w' = outbox w.
Proof.
  intros Hput. rewrite create_reservation_run.
  destruct (with_reservation_total self environ user_id w)
    as ([[[[] token_type] period] usage_data] & w1 & -> & Ht & Ho & Hf).
  - eauto.
  - rewrite manager_create_reservation_run, Hf, Hput by done. cbn. eauto.
Qed.

(** ** The limit check over several meters *)

Lemma verdict_cons o obs :
  obs_exceeded o = false → verdict (o :: obs) = verdict obs.
Proof.
  intros Ho. unfold verdict. rewrite last_cons.
  destruct (last obs); [done|]. by rewrite Ho.
Qed.

Lemma check_meters_observations meters user_id total_usage w :
  ∃ obs w',
    observations meters user_id w = (Ok obs, w') ∧
    TokenLimiter.check_meters meters user_id total_usage w
      = (Ok (verdict obs, foldl record_observation total_usage obs), w') ∧
    (∃ unread, meters = (obs_meter <$> obs) ++ unread
               ∧ ((verdict obs).1.1 = false → unread = [])) ∧
    (∀ o, o ∈ removelast obs → obs_exceeded o = false).
Proof.
  revert total_usage w. induction meters as [|meter rest IH]; intros total_usage w; cbn.
  - eexists [], w. split_and!; [done | done | by exists [] | by intros ? ?%elem_of_nil].
  - unfold mbind, M_bind, bind.
    destruct (meter_is_limit_exceeded_total meter user_id w) as [[[ex kind] usage] ->].
    destruct ex.
    + eexists [_], _. split_and!; [done | done | | by intros ? ?%elem_of_nil].
      exists rest. split; [done|]. by cbn.
    + destruct (IH (TokenLimiter.record_meter (name (TokenMeter.period_config meter)) usage total_usage)
                  (consume_fault (read_method (TokenMeter.period_config meter)) (advance_clock w)))
        as (obs & w' & -> & -> & (unread & Hsplit & Hall) & Hinit).
      eexists (_ :: obs), w'. split_and!; [done | | |].
      * by rewrite verdict_cons.
      * exists unread. rewrite verdict_cons by done. split; [by rewrite Hsplit | done].
      * intros o Ho. destruct obs as [|o' obs]; [by apply elem_of_nil in Ho|].
        cbn [removelast] in Ho. apply elem_of_cons in Ho as [->|Ho]; [done|].
        by apply Hinit.
Qed.
Lemma record_meter_lookup meter_name usage total_usage :
  let total' := TokenLimiter.record_meter meter_name usage total_usage in
  total' !! "input_tokens"
    = Some (Z.max (dict_get total_usage "input_tokens") (input_tokens usage)) ∧
  total' !! "output_tokens"
    = Some (Z.max (dict_get total_usage "output_tokens") (output_tokens usage)) ∧
  total' !! "daily_input_tokens"
    = (if decide (meter_name = "10min") then Some (input_tokens usage)
       else total_usage !! "daily_input_tokens") ∧
  total' !! "daily_output_tokens"
    = (if decide (meter_name = "10min") then Some (output_tokens usage)
       else total_usage !! "daily_output_tokens") ∧
  total' !! "monthly_input_tokens"
    = (if decide (meter_name = "monthly") then Some (input_tokens usage)
       else total_usage !! "monthly_input_tokens") ∧
  total' !! "monthly_output_tokens"
    = (if decide (meter_name = "monthly") then Some (output_tokens usage)
       else total_usage !! "monthly_output_tokens").
Proof.
  unfold TokenLimiter.record_meter, dict_get.
  destruct (decide (meter_name = "monthly")) as [->|Hm];
    [|destruct (decide (meter_name = "10min")) as [->|Hd]];
    cbn; split_and!; by simplify_map_eq.
Qed.

Lemma foldl_record_lookup key (g : Z → Observation → Z) :
  (∀ total_usage o v,
     total_usage !! key = Some v → record_observation total_usage o !! key = Some (g v o)) →
  ∀ obs total_usage v,
    total_usage !! key = Some v →
    foldl record_observation total_usage obs !! key = Some (foldl g v obs).
Proof.
  intros Hstep obs. induction obs as [|o obs IH]; intros total_usage v Hv; cbn; [done|].
  eapply IH, Hstep, Hv.
Qed.

Lemma observed_max_nonneg values : 0 ≤ observed_max values.
Proof. unfold observed_max. induction values; cbn; lia. Qed.

Lemma foldl_max_observed (f : Observation → Z) obs v :
  0 ≤ v →
  foldl (λ v o, Z.max v (f o)) v obs = Z.max v (observed_max (f <$> obs)).
Proof.
  unfold observed_max. revert v.
  induction obs as [|o obs IH]; intros v Hv; cbn; [lia|].
  rewrite IH by lia. lia.
Qed.

Lemma foldl_last_observed (P : Observation → Prop) `{∀ o, Decision (P o)}
    (f : Observation → Z) obs v :
  foldl (λ v o, if decide (P o) then f o else v) v obs
  = default v (f <$> last (filter P obs)).
Proof.
  revert v. induction obs as [|o obs IH]; intros v; cbn [foldl]; [done|].
  rewrite IH, filter_cons. destruct (decide (P o)); [|done].
  rewrite last_cons. by destruct (last (filter P obs)).
Qed.

Lemma sum_period_usage_input items :
  input_tokens (TokenMeter._sum_period_usage items)
  = foldr Z.add 0 ((λ item, attr_N item "input_tokens") <$> items).
Proof.
  unfold TokenMeter._sum_period_usage.
  assert (∀ a b,
    input_tokens
      (let '(total_input, total_output) :=
         fold_left (λ '(total_input, total_output) item,
                      (total_input + attr_N item "input_tokens",
                       total_output + attr_N item "output_tokens")) items (a, b) in
       {| input_tokens := total_input; output_tokens := total_output |})
    = a + foldr Z.add 0 ((λ item, attr_N item "input_tokens") <$> items)) as H.
  { induction items as [|item items IH]; intros a b; cbn; [lia|]. rewrite IH. lia. }
  by rewrite H.
Qed.

Lemma get_usage_input_fresh_record self user_id w key item :
  table w !! key = None →
  attr_N item "input_tokens" = 0 →
  ∃ usage usage',
    (TokenMeter._get_usage self user_id w).1 = Ok usage ∧
    (TokenMeter._get_usage self user_id (set_table (<[key := item]> (table w)) w)).1
      = Ok usage' ∧
    input_tokens usage' = input_tokens usage.
Proof.
  intros Hfresh Hzero. rewrite !get_usage_run. cbn.
  eexists _, _. split_and!; [done..|].
  destruct (faults w _ 0%nat); [done|].
  destruct (aggregate _).
  - rewrite !sum_period_usage_input, <- !list_fmap_compose. unfold selected.
    match goal with |- context [filter ?P (<[key := item]> _)] => set (P0 := P) end.
    destruct (decide (P0 (key, item))) as [Hp|Hp].
    + rewrite map_filter_insert_True by done.
      erewrite sum_permutation;
        [| apply fmap_Permutation, map_to_list_insert; by rewrite map_lookup_filter_None; left].
      cbn. rewrite attr_N_with_key by done. lia.
    + by rewrite map_filter_insert_not by (by intros ?).
  - cbn. destruct (decide (key = (user_id, id_format (TokenMeter.period_config self) (clock w 0%nat))))
      as [->|Hne].
    + rewrite lookup_insert_eq, Hfresh. cbn. by rewrite attr_N_with_key.
    + by rewrite lookup_insert_ne.
Qed.
Lemma new_reservation_item_lookup self environ user_id w :
  let item := new_reservation_item self environ user_id w in
  item !! "input_tokens" = Some (AttrN 0) ∧
  item !! "output_tokens"
    = Some (AttrN (reservation_amount_of (environ_get_int environ "DAILY_OUTPUT_LIMIT" 20000))).
Proof. unfold new_reservation_item. split; by simplify_map_eq. Qed.

Lemma manager_create_reservation_Some self environ user_id w reservation_id w' :
  TokenReservationManager.create_reservation self environ user_id w
    = (Ok (Some reservation_id), w') →
  reservation_id = new_reservation_id w ∧
  table w' = <[(user_id, reservation_id) := new_reservation_item self environ user_id w]> (table w).
Proof.
  rewrite manager_create_reservation_run. cbn zeta.
  destruct (faults w PutItem 0%nat); [done|]. by intros [= <- <-].
Qed.

Lemma get_meter_limits_foldl (meters : list TokenMeter.t) (limits : gmap string Z) meter_name v :
  foldl (λ limits meter,
           <[name (TokenMeter.period_config meter) :=
               input_limit (TokenMeter.period_config meter)]> limits) limits meters
    !! meter_name = Some v →
  limits !! meter_name = Some v ∨
  ∃ meter, meter ∈ meters ∧ name (TokenMeter.period_config meter) = meter_name
           ∧ v = input_limit (TokenMeter.period_config meter).
Proof.
  revert limits. induction meters as [|meter meters IH]; intros limits; cbn; [by left|].
  intros [Hl | (m & Hm & ? & ?)]%IH.
  - destruct (decide (name (TokenMeter.period_config meter) = meter_name)) as [<-|Hne].
    + rewrite lookup_insert_eq in Hl. injection Hl as <-.
      right. exists meter. split; [apply elem_of_cons; by left | done].
    + rewrite lookup_insert_ne in Hl by done. by left.
  - right. exists m. split; [apply elem_of_cons; by right | done].
Qed.


(** ** The reservation size *)


Lemma float_of_int_error (n : Z) :
  0 ≤ n → Z.abs (float_of_int n - n) * 2 ^ 53 ≤ n
          ∧ (2 ^ 53 < n → Z.even (float_of_int n) = true)
          ∧ (2 ≤ n → 2 ≤ float_of_int n).
Proof.
  intros Hn. unfold float_of_int. rewrite (Z.abs_eq n) by done.
  destruct (Z.leb_spec (Z.log2 n - 52) 0) as [He|He].
  - rewrite Z.sub_diag. split_and!; [lia | | lia].
    intros Hbig. assert (53 ≤ Z.log2 n); [|lia].
    apply Z.log2_le_pow2; lia.
  - assert (0 < n) as Hpos.
    { destruct (Z.eq_dec n 0) as [->|]; [|lia]. cbn in He. lia. }
    set (e := Z.log2 n - 52) in *.
    pose proof (Z.log2_spec n Hpos) as [Hlo Hhi].
    assert (Z.log2 n = e + 52) as Hlog by lia. rewrite Hlog in Hlo, Hhi.
    assert (0 < 2 ^ e) as Hpe by (apply Z.pow_pos_nonneg; lia).
    assert (2 ^ e = 2 * 2 ^ (e - 1)) as Hhalf.
    { rewrite <- Z.pow_succ_r by lia. f_equal. lia. }
    assert (0 < 2 ^ (e - 1)) as Hph by (apply Z.pow_pos_nonneg; lia).
    assert (2 ^ (e + 52) = 2 ^ 52 * 2 ^ e) as Hsplit.
    { rewrite Z.pow_add_r by lia. lia. }
    pose proof (Z.div_mod n (2 ^ e) ltac:(lia)) as Hdm.
    pose proof (Z.mod_pos_bound n (2 ^ e) Hpe) as Hr.
    set (q := n / 2 ^ e) in *. set (r := n mod 2 ^ e) in *.
    assert (2 ^ 52 ≤ q) as Hq by nia.
    rewrite (Z.sgn_pos n) by done. rewrite Z.mul_1_l.
    match goal with
    | |- context [if ?b then q + 1 else q] => set (q' := if b then q + 1 else q)
    end.
    assert (q ≤ q' ∧ Z.abs (q' * 2 ^ e - n) ≤ 2 ^ (e - 1)) as [Hq' Herr].
    { unfold q'.
      destruct (Z.ltb_spec (2 ^ (e - 1)) r); cbn [orb]; [split; lia|].
      destruct (Z.eqb_spec r (2 ^ (e - 1))); cbn [andb]; [|split; lia].
      destruct (Z.odd q); split; lia. }
    split_and!.
    + nia.
    + intros _. rewrite Hhalf, Z.mul_assoc, Z.even_mul.
      rewrite Z.even_mul. cbn. by rewrite orb_true_r.
    + intros _. nia.
Qed.



Lemma reservation_amount_of_pos (limit : Z) : 2 ≤ limit → 0 < reservation_amount_of limit.
Proof.
  intros Hl. unfold reservation_amount_of. apply Z.quot_str_pos.
  destruct (float_of_int_error limit ltac:(lia)) as (_ & _ & Hge). split; [lia|by apply Hge].
Qed.

(** ** Sums over the table *)

Lemma sum_output_tokens_insert keep t key item :
  t !! key = None →
  sum_output_tokens keep (<[key := item]> t)
  = (if keep key item then attr_N item "output_tokens" else 0) + sum_output_tokens keep t.
Proof.
  intros Hnone. unfold sum_output_tokens.
  rewrite map_fold_insert_L; [| intros; repeat case_match; lia | done].
  destruct (keep key item); lia.
Qed.

Lemma sum_output_tokens_ext keep1 keep2 t :
  (∀ key item, t !! key = Some item → keep1 key item = keep2 key item) →
  sum_output_tokens keep1 t = sum_output_tokens keep2 t.
Proof.
  induction t as [|key item t Hnone IH] using map_ind; intros Hext.
  - done.
  - rewrite !sum_output_tokens_insert by done.
    rewrite (Hext key item) by apply lookup_insert_eq.
    rewrite IH; [done|]. intros key' item' Hlook. apply Hext.
    rewrite lookup_insert_ne; [done|]. intros <-. congruence.
Qed.

(** ** Sequences of record calls *)

Lemma record_calls_app l1 l2 w :
  record_calls (l1 ++ l2) w = record_calls l2 (record_calls l1 w).2.
Proof.
  revert w. induction l1 as [|[[[meter user_id] i] o] l1 IH]; intros w; [done|].
  cbn [record_calls app]. unfold mbind, M_bind, bind.
  destruct (update_usage_total meter user_id i o w) as (ok & w' & ->). apply IH.
Qed.

Lemma record_calls_monotone calls w key attr :
  Forall nonnegative_call calls →
  attr = "input_tokens" ∨ attr = "output_tokens" →
  (record_calls calls w).1 = Ok tt ∧
  counter (table w) key attr ≤ counter (table (record_calls calls w).2) key attr.
Proof.
  intros Hcalls Hattr. revert w.
  induction Hcalls as [|[[[meter user_id] i] o] calls [Hi Ho] _ IH]; intros w.
  - cbn. split; [done | lia].
  - cbn [record_calls]. unfold mbind, M_bind, bind.
    pose proof (counter_update_usage meter user_id i o w key attr Hi Ho Hattr) as Hstep.
    destruct (update_usage_total meter user_id i o w) as (ok & w' & Hrun).
    rewrite Hrun in *. cbn in Hstep.
    destruct (IH w') as [Hok Hle]. split; [done | lia].
Qed.

(** ** The reported limits *)

Lemma get_meter_limits_input_limit (self : TokenLimiter.t) meter_name v :
  TokenLimiter.get_meter_limits self !! meter_name = Some v →
  ∃ meter, meter ∈ TokenLimiter.meters self
           ∧ name (TokenMeter.period_config meter) = meter_name
           ∧ v = input_limit (TokenMeter.period_config meter).
Proof.
  intros Hv. apply get_meter_limits_foldl in Hv as [Hv|Hv]; [|done].
  by rewrite lookup_empty in Hv.
Qed.


(** ** Concrete runs *)

(** A run is its result paired with the world it leaves. *)
Lemma run_eq {A} (c : M A) (w : World) (r : Res A) :
  (c w).1 = r → c w = (r, (c w).2).
Proof. destruct (c w); cbn; congruence. Qed.

(** An equation between closed terms, settled by evaluating both sides. *)
Ltac by_vm :=
  lazymatch goal with
  | |- @eq ?T _ ?rhs => vm_cast_no_check (@eq_refl T rhs)
  end.

Ltac by_vm_neq :=
  lazymatch goal with
  | |- ?a ≠ true =>
      let H := fresh in assert (a = false) as H by by_vm; rewrite H; discriminate
  end.
(* ===================================================================== *)
(** * The claims                                                         *)
(* ===================================================================== *)

(** ** Admission arithmetic *)

(** C1.  When the limit check over the meters passes and the daily output
    usage, plus the tokens already reserved, plus the size of a new
    reservation is strictly above the daily output limit, the reservation
    check rejects with token type "output" and period "daily", no
    reservation is written, and the handler publishes its denial with these
    two values in the details.  At the limit exactly the check passes and
    the reservation is handed to the reservation manager. *)
Theorem admission_rejects_over_daily_output
    (self : TokenLimiter.t) (environ : gmap string Z) (user_id : string)
    (w w1 w2 : World) (token_type period : option string)
    (usage_data : gmap string Z) (total_reserved : Z) :
  let limit := environ_get_int environ "DAILY_OUTPUT_LIMIT" 20000 in
  let total := dict_get usage_data "daily_output_tokens" + total_reserved
               + reservation_amount_of limit in
  TokenLimiter.is_limit_exceeded self user_id w
    = (Ok (false, token_type, period, usage_data), w1) →
  TokenReservationManager.get_total_reserved_tokens
    (TokenLimiter.reservation_manager self) user_id w1 = (Ok total_reserved, w2) →
  (limit < total →
     (∃ usage_data',
        TokenLimiter.is_limit_exceeded_with_reservation self environ user_id w
        = (Ok (true, Some "output", Some "daily", usage_data'), w2)) ∧
     TokenLimiter.create_reservation self environ user_id w = (Ok None, w2) ∧
     table w2 = table w ∧
     (∀ w0 token_type0 period0 token_usage process_events,
        TokenLimiter.is_limit_exceeded self user_id w0
          = (Ok (false, token_type0, period0, token_usage), w) →
        lambda_handler self environ user_id process_events w0
          = (Ok tt, push_event (reservation_failed_event token_usage) w2))) ∧
  (total ≤ limit →
     (∃ usage_data',
        TokenLimiter.is_limit_exceeded_with_reservation self environ user_id w
        = (Ok (false, None, None, usage_data'), w2)) ∧
     TokenLimiter.create_reservation self environ user_id w
     = TokenReservationManager.create_reservation
         (TokenLimiter.reservation_manager self) environ user_id w2).
Proof.
  intros limit total Hcheck Hreserved.
  assert (Hrun := with_reservation_run self environ user_id w).
  rewrite Hcheck, Hreserved in Hrun. cbn zeta in Hrun. fold limit total in Hrun.
  assert (Hcreate := create_reservation_run self environ user_id w).
  rewrite Hrun in Hcreate.
  split; intros Hcmp.
  - destruct (Z.ltb_spec limit total) as [_|?]; [|lia].
    split_and!; [eauto | done | |].
    + pose proof (check_meters_total (TokenLimiter.meters self) user_id
                    TokenLimiter.initial_usage w) as (r & w' & Hr & Hread).
      unfold TokenLimiter.is_limit_exceeded in Hcheck. rewrite Hcheck in Hr.
      injection Hr as _ <-.
      rewrite get_total_reserved_tokens_run in Hreserved. injection Hreserved as _ <-.
      exact (proj1 Hread).
    + intros w0 token_type0 period0 token_usage process_events Hfirst.
      by eapply lambda_handler_denied.
  - destruct (Z.ltb_spec limit total) as [?|_]; [lia|].
    split; [eauto | done].
Qed.

(** With two reservations of 10000 outstanding, a third admission is
    refused (0 + 20000 + 10000 > 20000) and the handler says so. *)
Lemma admission_rejects_over_daily_output_witness :
  let w0 := world_at jan8 jan8 two_reservations in
  let w := (TokenLimiter.is_limit_exceeded default_limiter "alice" w0).2 in
  20000 < 0 + 20000 + 10000 ∧
  (TokenLimiter.create_reservation default_limiter ∅ "alice" w).1 = Ok None ∧
  outbox (lambda_handler default_limiter ∅ "alice" (λ _ _, mret tt) w0).2
    = [reservation_failed_event TokenLimiter.initial_usage].
Proof.
  intros w0 w.
  assert ((TokenLimiter.is_limit_exceeded default_limiter "alice" w0).1
          = Ok (false, None, None, TokenLimiter.initial_usage)) as Hfirst by by_vm.
  assert ((TokenLimiter.is_limit_exceeded default_limiter "alice" w).1
          = Ok (false, None, None, TokenLimiter.initial_usage)) as Hcheck by by_vm.
  assert ((TokenReservationManager.get_total_reserved_tokens
             (TokenLimiter.reservation_manager default_limiter) "alice"
             (TokenLimiter.is_limit_exceeded default_limiter "alice" w).2).1
          = Ok 20000) as Hreserved by by_vm.
  destruct (admission_rejects_over_daily_output default_limiter ∅ "alice" w _ _
              None None TokenLimiter.initial_usage 20000
              (run_eq _ _ _ Hcheck) (run_eq _ _ _ Hreserved)) as [Hover _].
  destruct Hover as (_ & Hcreate & _ & Hhandler); [vm_compute; reflexivity|].
  split; [lia|]. split; [exact (f_equal fst Hcreate)|].
  rewrite (Hhandler w0 None None TokenLimiter.initial_usage (λ _ _, mret tt)
             (run_eq _ _ _ Hfirst)).
  by_vm.
Defined.

(** With one reservation of 10000 outstanding the sum meets the limit
    exactly (0 + 10000 + 10000 = 20000) and a second one is granted. *)
Example admission_at_the_limit :
  (TokenLimiter.create_reservation default_limiter ∅ "alice"
     (world_at jan8 jan8 stale_reservation)).1
  = Ok (Some "reservation:daily:2025-01-08:4f1c").
Proof. by_vm. Qed.

(** ** The size of a reservation *)



(** Above 2^53 the float shows: a setting of 2^54 + 2 is converted to the
    double 2^54, and the size is 2^53, one less than half the setting. *)
Example reservation_amount_above_float_precision :
  float_of_int (2 ^ 54 + 2) = 2 ^ 54 ∧
  reservation_amount_of (2 ^ 54 + 2) = 2 ^ 53 ∧
  (2 ^ 54 + 2) / 2 = 2 ^ 53 + 1.
Proof. split_and!; reflexivity. Qed.


(** ** The tokens already reserved *)

(** What [get_total_reserved_tokens] computes: the sum of [output_tokens]
    over the user's records whose sort key begins with
    "reservation:daily:<today>:", with no test of their TTL.  A failed
    query gives 0, and the table is left as it was.  The total is the one
    over non-expired records only when the table holds no expired record. *)
Lemma total_reserved_sums_todays_records
    (self : TokenReservationManager.t) (user_id : string) (w : World) :
  let now := clock w 0%nat in
  (∃ w',
     TokenReservationManager.get_total_reserved_tokens self user_id w
       = (Ok (if faults w Query 0%nat then 0
              else sum_output_tokens (todays_reservation user_id now) (table w)), w')
     ∧ table w' = table w) ∧
  ((∀ key item, table w !! key = Some item → expired now item = false) →
   sum_output_tokens (todays_reservation user_id now) (table w)
   = spec_total_reserved (table w) user_id now).
Proof.
  intros now0. split.
  - rewrite get_total_reserved_tokens_run. eauto.
  - intros Hlive. unfold spec_total_reserved. apply sum_output_tokens_ext.
    intros key item Hitem. rewrite (Hlive key item Hitem).
    by rewrite andb_true_r.
Qed.

(** Two live reservations of 10000 add up to 20000, which is also the total
    over the non-expired ones. *)
Lemma total_reserved_sums_todays_records_witness :
  let w := world_at jan8 jan8 two_reservations in
  (TokenReservationManager.get_total_reserved_tokens
     (TokenLimiter.reservation_manager default_limiter) "alice" w).1 = Ok 20000 ∧
  spec_total_reserved two_reservations "alice" jan8 = 20000.
Proof.
  intros w.
  destruct (total_reserved_sums_todays_records
              (TokenLimiter.reservation_manager default_limiter) "alice" w)
    as [(w' & Hrun & _) Hspec].
  split.
  - rewrite Hrun. by_vm.
  - change (spec_total_reserved (table w) "alice" (clock w 0%nat) = 20000).
    rewrite <- Hspec; [by_vm|].
    intros key item Hitem. apply not_true_is_false. revert key item Hitem.
    change (map_Forall (λ _ item, expired jan8 item ≠ true) two_reservations).
    unfold two_reservations.
    apply map_Forall_insert_2; [by_vm_neq|].
    apply map_Forall_insert_2; [by_vm_neq|]. apply map_Forall_empty.
Defined.

(** C3.  The code counts a reservation whose TTL has elapsed.  At 11:00 a
    record of alice whose TTL ran out at 10:35:30, and which the store has
    not yet deleted, is returned by [get_active_reservations] and enters
    the total: 10000 where the sum over non-expired records is 0, although
    the sweep of the same class removes this record as expired.  With two
    such records alice, who has used no token, is refused a reservation. *)
Theorem expired_reservation_still_counted :
  let manager := TokenLimiter.reservation_manager default_limiter in
  let w := world_at jan8_1100 jan8_1100 stale_reservation in
  let w2 := world_at jan8_1100 jan8_1100 two_reservations in
  stale_reservation !! ("alice", "reservation:daily:2025-01-08:a1")
    = Some (reservation_record 10000 1736332530) ∧
  int_timestamp jan8_1100 = 1736334000 ∧
  expired jan8_1100 (reservation_record 10000 1736332530) = true ∧
  spec_total_reserved stale_reservation "alice" jan8_1100 = 0 ∧
  (TokenReservationManager.get_active_reservations manager "alice" w).1
    = Ok [ {| TokenReservationManager.reservation_id := "reservation:daily:2025-01-08:a1";
              TokenReservationManager.output_tokens := 10000;
              TokenReservationManager.timestamp := 0 |} ] ∧
  (TokenReservationManager.get_total_reserved_tokens manager "alice" w).1 = Ok 10000 ∧
  (cleanup_expired_reservations manager "alice" w).1 = Ok 1 ∧
  table (cleanup_expired_reservations manager "alice" w).2 = ∅ ∧
  spec_total_reserved two_reservations "alice" jan8_1100 = 0 ∧
  (TokenMeter._get_usage daily_meter "alice" w2).1 = Ok zero_usage ∧
  (TokenLimiter.create_reservation default_limiter ∅ "alice" w2).1 = Ok None.
Proof. intros manager w w2. split_and!; by_vm. Qed.

(** ** What a record call writes *)

(** C4 (amended).  A record call that succeeds adds the token counts to
    the two counters of the current bucket, sets [timestamp] (the creation
    time) only if the bucket has none, and sets [ttl] to the expiry computed
    at this call, whatever the bucket held: the creation time is fixed by
    the first writer, the expiry by the last.  Nothing else changes, and a
    call that fails changes nothing. *)
Theorem record_sets_timestamp_once_ttl_always
    (self : TokenMeter.t) (user_id : string) (input_tokens output_tokens : Z)
    (w : World) :
  let cfg := TokenMeter.period_config self in
  let now := clock w 0%nat in
  let key := (user_id, bucket_id cfg now) in
  let old := default ∅ (table w !! key) in
  ∃ ok w',
    TokenMeter.update_usage self user_id input_tokens output_tokens w = (Ok ok, w') ∧
    if ok : bool then
      ∃ item,
        table w' !! key = Some item ∧
        item !! "timestamp"
          = Some (default (AttrN (int_timestamp now)) (old !! "timestamp")) ∧
        item !! "ttl" = Some (AttrN (ttl_at cfg now)) ∧
        item !! "input_tokens" = Some (AttrN (attr_N old "input_tokens" + input_tokens)) ∧
        item !! "output_tokens" = Some (AttrN (attr_N old "output_tokens" + output_tokens)) ∧
        (∀ attr, attr ∉ ["input_tokens"; "output_tokens"; "timestamp"; "ttl"] →
                 item !! attr = old !! attr) ∧
        (∀ key', key' ≠ key → table w' !! key' = table w !! key')
    else table w' = table w.
Proof.
  intros cfg now0 key old. rewrite update_usage_run. fold cfg now0 key old.
  destruct (faults w UpdateItem 0%nat); [by eexists false, _|].
  destruct (fold_left _ _ _) as [item|] eqn:Hfold; [|by eexists false, _].
  eexists true, _. split; [done|]. exists item. cbn.
  apply usage_actions_Some in Hfold as (Hin & Hout & Hts & Httl & Hother).
  split_and!; [by rewrite lookup_insert_eq | done.. |].
  intros key' Hne. by rewrite lookup_insert_ne.
Qed.

(** A record at 10:25:30 creates the bucket of 10:20 with its creation time
    and an expiry one day later. *)
Lemma record_sets_timestamp_once_ttl_always_witness :
  let w := world_at jan8 jan8_1027 ∅ in
  let run := TokenMeter.update_usage daily_meter "alice" 100 900 w in
  let key := ("alice", "10min:2025-01-08:10:20") in
  run.1 = Ok true ∧
  ∃ item, table run.2 !! key = Some item
          ∧ item !! "timestamp" = Some (AttrN 1736331930)
          ∧ item !! "ttl" = Some (AttrN 1736418330).
Proof.
  intros w run key.
  destruct (record_sets_timestamp_once_ttl_always daily_meter "alice" 100 900 w)
    as (ok & w' & Hrun & Hitem).
  assert (run.1 = Ok true) as Hok by by_vm.
  assert (ok = true ∧ w' = run.2) as [-> ->].
  { unfold run in *. rewrite Hrun in Hok |- *. by injection Hok as ->. }
  split; [exact Hok|].
  destruct Hitem as (item & Hlook & Hts & Httl & _).
  exists item. split_and!; [exact Hlook | | ].
  - rewrite Hts. by_vm.
  - rewrite Httl. by_vm.
Defined.

(** A second record in the same bucket, 90 seconds later, keeps the creation
    time and moves the expiry by 90 seconds. *)
Lemma later_record_moves_ttl :
  let w := world_at jan8 jan8_1027 ∅ in
  let w1 := (TokenMeter.update_usage daily_meter "alice" 100 900 w).2 in
  let w2 := (TokenMeter.update_usage daily_meter "alice" 50 10 w1).2 in
  let key := ("alice", "10min:2025-01-08:10:20") in
  bucket_id (TokenMeter.period_config daily_meter) (clock w 0%nat) = key.2 ∧
  bucket_id (TokenMeter.period_config daily_meter) (clock w1 0%nat) = key.2 ∧
  counter (table w1) key "timestamp" = 1736331930 ∧
  counter (table w2) key "timestamp" = 1736331930 ∧
  counter (table w1) key "ttl" = 1736418330 ∧
  counter (table w2) key "ttl" = 1736418420.
Proof. intros w w1 w2 key. split_and!; by_vm. Qed.

(** ** The limits reported to the frontend *)

(** C5.  [get_meter_limits] maps each meter name to the input limit of the
    meter alone: for the default limiter the map is
    {10min: 10000, monthly: 100000}, and the output limits (20000 and
    200000) are not in it. *)
Theorem meter_limits_report_input_limit_only :
  TokenLimiter.get_meter_limits default_limiter
    = {[ "10min" := 10000; "monthly" := 100000 ]} ∧
  (input_limit ∘ TokenMeter.period_config <$> TokenLimiter.meters default_limiter)
    = [10000; 100000] ∧
  (output_limit ∘ TokenMeter.period_config <$> TokenLimiter.meters default_limiter)
    = [20000; 200000].
Proof. split_and!; by_vm. Qed.

(** ** The limit check over the meters *)

(** C6 (amended).  The limit check reads the meters in list order and stops
    at the first one that reports an excess, returning that meter's token
    type and description.  The usage it returns describes the meters read,
    those up to and including the first exceeded one: [input_tokens] and
    [output_tokens] are the largest of 0 and the values read, the daily_*
    fields are those of the last meter read that is called "10min" and the
    monthly_* fields those of the last one called "monthly", 0 when none was
    read.  When no meter reports an excess every meter has been read. *)
Theorem limit_check_short_circuits
    (self : TokenLimiter.t) (user_id : string) (w : World) :
  ∃ obs w' usage_data,
    observations (TokenLimiter.meters self) user_id w = (Ok obs, w') ∧
    TokenLimiter.is_limit_exceeded self user_id w = (Ok (verdict obs, usage_data), w') ∧
    (∃ unread, TokenLimiter.meters self = (obs_meter <$> obs) ++ unread
               ∧ ((verdict obs).1.1 = false → unread = [])) ∧
    (∀ o, o ∈ removelast obs → obs_exceeded o = false) ∧
    usage_data !! "input_tokens"
      = Some (observed_max (input_tokens ∘ obs_usage <$> obs)) ∧
    usage_data !! "output_tokens"
      = Some (observed_max (output_tokens ∘ obs_usage <$> obs)) ∧
    usage_data !! "daily_input_tokens" = Some (observed_last "10min" input_tokens obs) ∧
    usage_data !! "daily_output_tokens" = Some (observed_last "10min" output_tokens obs) ∧
    usage_data !! "monthly_input_tokens" = Some (observed_last "monthly" input_tokens obs) ∧
    usage_data !! "monthly_output_tokens" = Some (observed_last "monthly" output_tokens obs).
Proof.
  destruct (check_meters_observations (TokenLimiter.meters self) user_id
              TokenLimiter.initial_usage w)
    as (obs & w' & Hobs & Hrun & Hsplit & Hinit).
  exists obs, w', (foldl record_observation TokenLimiter.initial_usage obs).
  split_and!; [done..| | | | | |].
  - erewrite (foldl_record_lookup "input_tokens"
                (λ v o, Z.max v (input_tokens (obs_usage o)))); [| |done].
    + f_equal. rewrite (foldl_max_observed (input_tokens ∘ obs_usage)) by done.
      pose proof (observed_max_nonneg (input_tokens ∘ obs_usage <$> obs)). lia.
    + intros total o v Hv. unfold record_observation.
      destruct (record_meter_lookup (name (TokenMeter.period_config (obs_meter o)))
                  (obs_usage o) total) as (-> & _).
      unfold dict_get. by rewrite Hv.
  - erewrite (foldl_record_lookup "output_tokens"
                (λ v o, Z.max v (output_tokens (obs_usage o)))); [| |done].
    + f_equal. rewrite (foldl_max_observed (output_tokens ∘ obs_usage)) by done.
      pose proof (observed_max_nonneg (output_tokens ∘ obs_usage <$> obs)). lia.
    + intros total o v Hv. unfold record_observation.
      destruct (record_meter_lookup (name (TokenMeter.period_config (obs_meter o)))
                  (obs_usage o) total) as (_ & -> & _).
      unfold dict_get. by rewrite Hv.
  - erewrite (foldl_record_lookup "daily_input_tokens"
                (λ v o, if decide (name (TokenMeter.period_config (obs_meter o)) = "10min")
                        then input_tokens (obs_usage o) else v)); [| |done].
    + by rewrite (foldl_last_observed _ (input_tokens ∘ obs_usage)).
    + intros total o v Hv. unfold record_observation.
      destruct (record_meter_lookup (name (TokenMeter.period_config (obs_meter o)))
                  (obs_usage o) total) as (_ & _ & -> & _).
      by destruct (decide _).
  - erewrite (foldl_record_lookup "daily_output_tokens"
                (λ v o, if decide (name (TokenMeter.period_config (obs_meter o)) = "10min")
                        then output_tokens (obs_usage o) else v)); [| |done].
    + by rewrite (foldl_last_observed _ (output_tokens ∘ obs_usage)).
    + intros total o v Hv. unfold record_observation.
      destruct (record_meter_lookup (name (TokenMeter.period_config (obs_meter o)))
                  (obs_usage o) total) as (_ & _ & _ & -> & _).
      by destruct (decide _).
  - erewrite (foldl_record_lookup "monthly_input_tokens"
                (λ v o, if decide (name (TokenMeter.period_config (obs_meter o)) = "monthly")
                        then input_tokens (obs_usage o) else v)); [| |done].
    + by rewrite (foldl_last_observed _ (input_tokens ∘ obs_usage)).
    + intros total o v Hv. unfold record_observation.
      destruct (record_meter_lookup (name (TokenMeter.period_config (obs_meter o)))
                  (obs_usage o) total) as (_ & _ & _ & _ & -> & _).
      by destruct (decide _).
  - erewrite (foldl_record_lookup "monthly_output_tokens"
                (λ v o, if decide (name (TokenMeter.period_config (obs_meter o)) = "monthly")
                        then output_tokens (obs_usage o) else v)); [| |done].
    + by rewrite (foldl_last_observed _ (output_tokens ∘ obs_usage)).
    + intros total o v Hv. unfold record_observation.
      destruct (record_meter_lookup (name (TokenMeter.period_config (obs_meter o)))
                  (obs_usage o) total) as (_ & _ & _ & _ & _ & ->).
      by destruct (decide _).
Qed.

(** With 100 input and 900 output tokens recorded in both buckets no meter
    is exceeded, both are read and the usage carries their values. *)
Lemma limit_check_short_circuits_witness :
  let w := world_at jan8 jan8
             {[ ("alice", "10min:2025-01-08:10:20") := usage_record 100 900;
                ("alice", "monthly:2025-01") := usage_record 150 950 ]} in
  ∃ usage_data,
    (TokenLimiter.is_limit_exceeded default_limiter "alice" w).1
      = Ok (false, None, None, usage_data) ∧
    usage_data !! "input_tokens" = Some 150 ∧
    usage_data !! "daily_input_tokens" = Some 100 ∧
    usage_data !! "monthly_output_tokens" = Some 950.
Proof.
  intros w.
  destruct (limit_check_short_circuits default_limiter "alice" w)
    as (obs & w' & usage_data & Hobs & Hrun & _ & _ & Hin & _ & Hdin & _ & _ & Hmout).
  assert (obs = [ {| obs_meter := daily_meter; obs_exceeded := false;
                     obs_token_type := None;
                     obs_usage := {| input_tokens := 100; output_tokens := 900 |} |};
                  {| obs_meter := monthly_meter; obs_exceeded := false;
                     obs_token_type := None;
                     obs_usage := {| input_tokens := 150; output_tokens := 950 |} |} ])
    as ->.
  { assert ((observations (TokenLimiter.meters default_limiter) "alice" w).1
            = Ok [ {| obs_meter := daily_meter; obs_exceeded := false;
                      obs_token_type := None;
                      obs_usage := {| input_tokens := 100; output_tokens := 900 |} |};
                   {| obs_meter := monthly_meter; obs_exceeded := false;
                      obs_token_type := None;
                      obs_usage := {| input_tokens := 150; output_tokens := 950 |} |} ])
      as Hconcrete by by_vm.
    rewrite Hobs in Hconcrete. by injection Hconcrete. }
  exists usage_data. rewrite Hrun. split_and!; [reflexivity | | | ].
  - rewrite Hin. by_vm.
  - rewrite Hdin. by_vm.
  - rewrite Hmout. by_vm.
Defined.

(** When the daily meter is at its input limit the monthly meter is not
    read: its usage is 50000 input tokens, yet the returned usage has
    [monthly_input_tokens] 0 and [input_tokens] 10000. *)
Lemma unread_meter_missing_from_usage :
  let w := world_at jan8 jan8 daily_exhausted in
  TokenLimiter.meters default_limiter = [daily_meter; monthly_meter] ∧
  (TokenMeter._get_usage monthly_meter "alice" w).1
    = Ok {| input_tokens := 50000; output_tokens := 800 |} ∧
  ∃ usage_data,
    (TokenLimiter.is_limit_exceeded default_limiter "alice" w).1
      = Ok (true, Some "input", Some "daily", usage_data) ∧
    usage_data !! "input_tokens" = Some 10000 ∧
    usage_data !! "monthly_input_tokens" = Some 0 ∧
    usage_data !! "monthly_output_tokens" = Some 0.
Proof.
  intros w. split_and!; [by_vm | by_vm |].
  exists (match (TokenLimiter.is_limit_exceeded default_limiter "alice" w).1 with
          | Ok r => r.2
          | Raise _ => ∅
          end).
  split_and!; by_vm.
Qed.

(** ** Reads fail open *)

(** C7 (amended).  Reading the usage never raises.  It gives zero input and
    output tokens when the store call fails and, for a policy read by
    direct lookup, when the current bucket has no record; a policy read by
    aggregation gives the sum over the records its query selects, so zero
    when none is selected, and the records of earlier buckets of the window
    count even if the current bucket has none.  When the store call fails
    and both limits are positive the meter does not report an excess. *)
Theorem usage_fails_open (self : TokenMeter.t) (user_id : string) (w : World) :
  let cfg := TokenMeter.period_config self in
  (∃ usage w', TokenMeter._get_usage self user_id w = (Ok usage, w')) ∧
  (∃ r w', TokenMeter.is_limit_exceeded self user_id w = (Ok r, w')) ∧
  (faults w (read_method cfg) 0%nat = true →
     (TokenMeter._get_usage self user_id w).1 = Ok zero_usage ∧
     (0 < input_limit cfg → 0 < output_limit cfg →
      (TokenMeter.is_limit_exceeded self user_id w).1 = Ok (false, None, zero_usage))) ∧
  (aggregate cfg = false →
     table w !! (user_id, id_format cfg (clock w 0%nat)) = None →
     (TokenMeter._get_usage self user_id w).1 = Ok zero_usage) ∧
  (aggregate cfg = true →
     selected user_id (usage_condition cfg (clock w 0%nat)) (table w) = ∅ →
     (TokenMeter._get_usage self user_id w).1 = Ok zero_usage).
Proof.
  intros cfg. rewrite meter_is_limit_exceeded_run, get_usage_run. fold cfg. cbn.
  split_and!.
  - eauto.
  - eauto.
  - intros ->. split; [done|]. intros Hi Ho. cbn.
    destruct (Z.leb_spec (input_limit cfg) 0); [lia|].
    destruct (Z.leb_spec (output_limit cfg) 0); [lia|]. done.
  - intros Hagg Hnone. rewrite Hagg, Hnone. cbn. by destruct (faults _ _ _).
  - intros Hagg Hsel. rewrite Hagg, Hsel. rewrite map_to_list_empty. cbn.
    by destruct (faults _ _ _).
Qed.

(** With the store down the daily meter reads zero usage and reports no
    excess, although a bucket holds 500 and 700 tokens; with the store up
    the monthly meter reads zero when the month has no record. *)
Lemma usage_fails_open_witness :
  let down := store_down (world_at jan8 jan8 earlier_bucket) in
  (TokenMeter._get_usage daily_meter "alice" down).1 = Ok zero_usage ∧
  (TokenMeter.is_limit_exceeded daily_meter "alice" down).1 = Ok (false, None, zero_usage) ∧
  (TokenMeter._get_usage monthly_meter "alice" (world_at jan8 jan8 earlier_bucket)).1
    = Ok zero_usage.
Proof.
  intros down.
  destruct (usage_fails_open daily_meter "alice" down) as (_ & _ & Hdown & _).
  destruct Hdown as [Husage Hcheck]; [reflexivity|].
  destruct (usage_fails_open monthly_meter "alice" (world_at jan8 jan8 earlier_bucket))
    as (_ & _ & _ & Hdirect & _).
  split_and!.
  - exact Husage.
  - apply Hcheck; reflexivity.
  - apply Hdirect; [reflexivity | by_vm].
Defined.

(** At 10:25 the current bucket of the daily policy is that of 10:20 and has
    no record, yet the usage is that of the bucket of 10:00. *)
Lemma usage_without_current_bucket :
  let w := world_at jan8 jan8 earlier_bucket in
  let cfg := TokenMeter.period_config daily_meter in
  bucket_id cfg (clock w 0%nat) = "10min:2025-01-08:10:20" ∧
  table w !! ("alice", bucket_id cfg (clock w 0%nat)) = None ∧
  table w !! ("alice", id_format cfg (clock w 0%nat)) = None ∧
  (TokenMeter._get_usage daily_meter "alice" w).1
    = Ok {| input_tokens := 500; output_tokens := 700 |}.
Proof. intros w cfg. split_and!; by_vm. Qed.

(** ** Writes fail closed *)

(** C8.  When the store refuses the write of the reservation record,
    [create_reservation] returns none, in the manager and in the limiter,
    without raising and without changing the table.  The handler then
    publishes exactly one event and does not process the request: the event
    is a denial, of type "reservation_failed" whenever the limit check had
    passed. *)
Theorem reservation_write_failure_denies
    (self : TokenLimiter.t) (environ : gmap string Z) (user_id : string)
    (process_events : gmap string Z → string → M unit) (w : World) :
  faults w PutItem 0%nat = true →
  (∃ w', TokenReservationManager.create_reservation
           (TokenLimiter.reservation_manager self) environ user_id w = (Ok None, w')
         ∧ table w' = table w) ∧
  (∃ w', TokenLimiter.create_reservation self environ user_id w = (Ok None, w')
         ∧ table w' = table w) ∧
  (∃ ev w', lambda_handler self environ user_id process_events w = (Ok tt, w')
            ∧ outbox w' = ev :: outbox w ∧ table w' = table w
            ∧ (error_type ev = "token_limit_exceeded" ∨ error_type ev = "reservation_failed")
            ∧ ∀ token_type period token_usage w1,
                TokenLimiter.is_limit_exceeded self user_id w
                  = (Ok (false, token_type, period, token_usage), w1) →
                ev = reservation_failed_event token_usage).
Proof.
  intros Hput. split_and!.
  - rewrite manager_create_reservation_run, Hput. cbn. eauto.
  - destruct (limiter_create_reservation_put_fails self environ user_id w Hput)
      as (w' & ? & ? & ?). eauto.
  - destruct (limiter_is_limit_exceeded_total self user_id w)
      as ([[[[] token_type] period] token_usage] & w1 & Hcheck & Ht & Ho & Hf).
    + eexists _, _. split.
      * unfold lambda_handler, try_except, mbind, M_bind, bind. rewrite Hcheck.
        reflexivity.
      * cbn. rewrite Ho, Ht. split_and!; [done | done | by left |].
        intros ???? H. rewrite Hcheck in H. discriminate.
    + destruct (limiter_create_reservation_put_fails self environ user_id w1)
        as (w2 & Hcreate & Ht2 & Ho2); [by rewrite Hf|].
      eexists _, _. split; [by eapply lambda_handler_denied|].
      cbn. rewrite Ho2, Ho, Ht2, Ht. split_and!; [done | done | by right |].
      intros ???? H. rewrite Hcheck in H. by injection H as _ _ -> _.
Qed.

(** With the whole store down the reads fail open, the write fails closed,
    and the one event published is of type "reservation_failed". *)
Lemma reservation_write_failure_denies_witness :
  let w := store_down (world_at jan8 jan8 ∅) in
  faults w PutItem 0%nat = true ∧
  (TokenLimiter.create_reservation default_limiter ∅ "alice" w).1 = Ok None ∧
  error_type <$> outbox (lambda_handler default_limiter ∅ "alice" (λ _ _, mret tt) w).2
    = ["reservation_failed"].
Proof.
  intros w.
  destruct (reservation_write_failure_denies default_limiter ∅ "alice" (λ _ _, mret tt) w)
    as (_ & (w1 & Hcreate & _) & (ev & w2 & Hrun & Hout & _ & _ & Hev)); [reflexivity|].
  split_and!; [reflexivity | by rewrite Hcreate |].
  rewrite Hrun. cbn [snd]. rewrite Hout.
  erewrite (Hev None None TokenLimiter.initial_usage); [reflexivity|].
  apply run_eq. by_vm.
Defined.

(** ** Counters only grow *)

(** C9 (amended).  Record calls whose token counts are not negative never
    decrease a counter: after any calls, and any number of further such
    calls by any meters for any users, every [input_tokens] and
    [output_tokens] counter of every bucket is at least what it was. *)
Theorem recorded_counters_never_decrease
    (earlier later : list (TokenMeter.t * string * Z * Z)) (w : World)
    (key : string * string) (attr : string) :
  Forall nonnegative_call later →
  attr = "input_tokens" ∨ attr = "output_tokens" →
  (record_calls (earlier ++ later) w).1 = Ok tt ∧
  counter (table (record_calls earlier w).2) key attr
  ≤ counter (table (record_calls (earlier ++ later) w).2) key attr.
Proof.
  intros Hlater Hattr. rewrite record_calls_app.
  by apply record_calls_monotone.
Qed.

(** Two records of 100 input tokens after a first one take the counter of
    the bucket from 100 to 300. *)
Lemma recorded_counters_never_decrease_witness :
  let w := world_at jan8 jan8 ∅ in
  let key := ("alice", "10min:2025-01-08:10:20") in
  let first := [(daily_meter, "alice", 100, 900)] in
  let next := [(daily_meter, "alice", 100, 0); (monthly_meter, "alice", 100, 0);
               (daily_meter, "alice", 100, 50)] in
  Forall nonnegative_call next ∧
  counter (table (record_calls first w).2) key "input_tokens" = 100 ∧
  counter (table (record_calls (first ++ next) w).2) key "input_tokens" = 300 ∧
  counter (table (record_calls first w).2) key "input_tokens"
  ≤ counter (table (record_calls (first ++ next) w).2) key "input_tokens".
Proof.
  intros w key first next.
  assert (Forall nonnegative_call next) as Hnext
    by (repeat constructor; cbn; lia).
  split_and!; [exact Hnext | by_vm | by_vm |].
  apply (recorded_counters_never_decrease first next w key "input_tokens" Hnext).
  by left.
Defined.

(** A record call with -40 input tokens takes the counter from 10000 down
    to 9960. *)
Lemma negative_record_decreases_counter :
  let w := world_at jan8 jan8 daily_exhausted in
  let key := ("alice", "10min:2025-01-08:10:20") in
  let run := TokenMeter.update_usage daily_meter "alice" (-40) 0 w in
  counter (table w) key "input_tokens" = 10000 ∧
  run.1 = Ok true ∧
  counter (table run.2) key "input_tokens" = 9960.
Proof. intros w key run. split_and!; by_vm. Qed.

(** ** Reservations and input tokens *)

(** C10 (amended).  Every reservation record is written with
    [input_tokens] 0 and with the reservation size as [output_tokens], a
    size that is positive whenever the DAILY_OUTPUT_LIMIT setting is at
    least 2.  A new record with [input_tokens] 0 leaves the input usage read
    by any meter unchanged, and the reservation check of the limiter denies
    with a token type other than "output" only when the limit check over
    the meters already denies, with that same result. *)
Theorem reservations_never_count_as_input
    (self : TokenLimiter.t) (environ : gmap string Z) (user_id : string) (w : World) :
  let limit := environ_get_int environ "DAILY_OUTPUT_LIMIT" 20000 in
  (∀ reservation_id w',
     TokenReservationManager.create_reservation
       (TokenLimiter.reservation_manager self) environ user_id w
       = (Ok (Some reservation_id), w') →
     ∃ item, table w' !! (user_id, reservation_id) = Some item
             ∧ item !! "input_tokens" = Some (AttrN 0)
             ∧ item !! "output_tokens" = Some (AttrN (reservation_amount_of limit))
             ∧ (2 ≤ limit → 0 < reservation_amount_of limit)) ∧
  (∀ (meter : TokenMeter.t) (reader : string) key item,
     table w !! key = None →
     item !! "input_tokens" = Some (AttrN 0) →
     ∃ usage usage',
       (TokenMeter._get_usage meter reader w).1 = Ok usage ∧
       (TokenMeter._get_usage meter reader (set_table (<[key := item]> (table w)) w)).1
         = Ok usage' ∧
       input_tokens usage' = input_tokens usage) ∧
  (∀ token_type period usage_data w1 r w2,
     TokenLimiter.is_limit_exceeded self user_id w
       = (Ok (false, token_type, period, usage_data), w1) →
     TokenLimiter.is_limit_exceeded_with_reservation self environ user_id w = (Ok r, w2) →
     r.1.1.1 = true → r.1.1.2 = Some "output" ∧ r.1.2 = Some "daily") ∧
  (∀ token_type period usage_data w1,
     TokenLimiter.is_limit_exceeded self user_id w
       = (Ok (true, token_type, period, usage_data), w1) →
     TokenLimiter.is_limit_exceeded_with_reservation self environ user_id w
       = (Ok (true, token_type, period, usage_data), w1)).
Proof.
  intros limit. split_and!.
  - intros reservation_id w' Hcreate.
    apply manager_create_reservation_Some in Hcreate as [-> ->].
    eexists. rewrite lookup_insert_eq. split; [done|].
    destruct (new_reservation_item_lookup (TokenLimiter.reservation_manager self)
                environ user_id w) as [-> ->].
    split_and!; [done..|]. apply reservation_amount_of_pos.
  - intros meter reader key item Hfresh Hzero.
    apply get_usage_input_fresh_record; [done|]. unfold attr_N. by rewrite Hzero.
  - intros token_type period usage_data w1 r w2 Hcheck.
    rewrite with_reservation_run, Hcheck, get_total_reserved_tokens_run. cbn zeta.
    destruct (_ <? _); intros [= <- _]; cbn; [done|]. discriminate.
  - intros token_type period usage_data w1 Hcheck.
    by rewrite with_reservation_run, Hcheck.
Qed.

(** With nothing set in the environment the record written holds 0 input
    tokens and 10000 reserved output tokens. *)
Lemma reservations_never_count_as_input_witness :
  let w := world_at jan8 jan8 ∅ in
  let run := TokenReservationManager.create_reservation
               (TokenLimiter.reservation_manager default_limiter) ∅ "alice" w in
  2 ≤ 20000 ∧
  ∃ item, table run.2 !! ("alice", "reservation:daily:2025-01-08:4f1c") = Some item
          ∧ item !! "input_tokens" = Some (AttrN 0)
          ∧ item !! "output_tokens" = Some (AttrN 10000)
          ∧ 0 < reservation_amount_of 20000.
Proof.
  intros w run. split; [lia|].
  destruct (reservations_never_count_as_input default_limiter ∅ "alice" w)
    as (Hrecord & _).
  destruct (Hrecord "reservation:daily:2025-01-08:4f1c" run.2)
    as (item & Hlook & Hin & Hout & Hpos); [apply run_eq; by_vm|].
  exists item. split_and!; [exact Hlook | exact Hin | exact Hout |].
  apply Hpos. cbv. discriminate.
Defined.

(** With DAILY_OUTPUT_LIMIT set to 1 the handler's limiter grants a
    reservation whose record reserves 0 output tokens. *)
Lemma reservation_of_zero_tokens :
  let environ : gmap string Z := {[ "DAILY_OUTPUT_LIMIT" := 1 ]} in
  let run := TokenLimiter.create_reservation (TokenLimiter.init environ None) environ
               "alice" (world_at jan8 jan8 ∅) in
  run.1 = Ok (Some "reservation:daily:2025-01-08:4f1c") ∧
  (table run.2 !! ("alice", "reservation:daily:2025-01-08:4f1c")) ≫= (.!! "output_tokens")
    = Some (AttrN 0).
Proof. intros environ run. split; by_vm. Qed.

(* ===================================================================== *)
(** * Further properties                                                 *)
(* ===================================================================== *)

(** ** Removing reservations *)

Lemma remove_reservation_run self user_id reservation_id w :
  TokenReservationManager.remove_reservation self user_id reservation_id w =
    if faults w DeleteItem 0%nat then (Ok false, consume_fault DeleteItem w)
    else (Ok true,
          set_table (delete (user_id, reservation_id) (table w)) (consume_fault DeleteItem w)).
Proof.
  unfold TokenReservationManager.remove_reservation. run_M.
  by destruct (faults w DeleteItem 0%nat).
Qed.

Lemma sum_output_tokens_delete keep t key :
  sum_output_tokens keep (delete key t)
  = sum_output_tokens keep t
    - match t !! key with
      | Some item => if keep key item then attr_N item "output_tokens" else 0
      | None => 0
      end.
Proof.
  destruct (t !! key) as [item|] eqn:Hkey.
  - rewrite <- (insert_delete_id t key item) at 2 by done.
    rewrite sum_output_tokens_insert by apply lookup_delete_eq. lia.
  - rewrite delete_id by done. lia.
Qed.

(** Removing a reservation releases what it reserved.  A removal that the
    store accepts deletes the record, so a total read afterwards is the
    earlier total less the tokens of that record when it was one of today's
    reservations of the user; removing an absent record succeeds and changes
    nothing.  A removal that the store refuses returns false and leaves the
    record in place. *)
Theorem remove_reservation_releases
    (self : TokenReservationManager.t) (user_id reservation_id : string) (w : World) :
  let key := (user_id, reservation_id) in
  let released :=
    match table w !! key with
    | Some item =>
        if String.prefix (reservation_prefix (clock w 0%nat)) reservation_id
        then attr_N item "output_tokens" else 0
    | None => 0
    end in
  ∃ w',
    TokenReservationManager.remove_reservation self user_id reservation_id w
      = (Ok (negb (faults w DeleteItem 0%nat)), w') ∧
    (faults w DeleteItem 0%nat = true → table w' = table w) ∧
    (faults w DeleteItem 0%nat = false →
       table w' = delete key (table w) ∧
       (table w !! key = None → table w' = table w) ∧
       (faults w Query 0%nat = false →
        ∃ total,
          (TokenReservationManager.get_total_reserved_tokens self user_id w).1 = Ok total ∧
          (TokenReservationManager.get_total_reserved_tokens self user_id w').1
            = Ok (total - released))).
Proof.
  intros key released. rewrite remove_reservation_run.
  destruct (faults w DeleteItem 0%nat) eqn:Hdel; eexists; (split; [reflexivity|]).
  - split; [done | intros [=]].
  - split; [intros [=]|]. intros _. split_and!; [done | |].
    + intros Hnone. cbn. by apply delete_id.
    + intros Hquery. rewrite !get_total_reserved_tokens_run. cbn. rewrite Hquery.
      eexists. split; [done|]. f_equal.
      rewrite sum_output_tokens_delete. unfold released, key, todays_reservation. cbn.
      destruct (table w !! (user_id, reservation_id)); [|done].
      by rewrite bool_decide_eq_true_2.
Qed.

(** With two reservations of 10000 held, removing one brings the total from
    20000 to 10000. *)
Lemma remove_reservation_releases_witness :
  let w := world_at jan8 jan8 two_reservations in
  let self := TokenLimiter.reservation_manager default_limiter in
  let w' := (TokenReservationManager.remove_reservation self "alice"
               "reservation:daily:2025-01-08:a1" w).2 in
  faults w DeleteItem 0%nat = false ∧ faults w Query 0%nat = false ∧
  (TokenReservationManager.get_total_reserved_tokens self "alice" w).1 = Ok 20000 ∧
  (TokenReservationManager.get_total_reserved_tokens self "alice" w').1 = Ok 10000.
Proof.
  intros w self w'.
  destruct (remove_reservation_releases self "alice" "reservation:daily:2025-01-08:a1" w)
    as (w1 & Hrun & _ & Hok).
  destruct Hok as (_ & _ & Htotal); [reflexivity|].
  destruct Htotal as (total & Hbefore & Hafter); [reflexivity|].
  assert ((TokenReservationManager.get_total_reserved_tokens self "alice" w).1 = Ok 20000)
    as Hconcrete by by_vm.
  rewrite Hbefore in Hconcrete. injection Hconcrete as ->.
  split_and!; [reflexivity | reflexivity | exact Hbefore |].
  unfold w'. rewrite Hrun. cbn [snd]. rewrite Hafter. by_vm.
Defined.

(** ** Strings *)

Lemma prefix_append (a b : string) : String.prefix a (a +:+ b) = true.
Proof.
  induction a as [|c a IH]; simpl; [by destruct b|].
  destruct (ascii_dec c c); [exact IH | congruence].
Qed.

Lemma prefix_append_mono (a p s : string) :
  String.prefix p s = true → String.prefix (a +:+ p) (a +:+ s) = true.
Proof.
  intros Hp. induction a as [|c a IH]; simpl; [done|].
  destruct (ascii_dec c c); [exact IH | congruence].
Qed.

Lemma prefix_append_l (a b s : string) :
  String.prefix (a +:+ b) s = true → String.prefix a s = true.
Proof.
  revert s. induction a as [|c a IH]; intros s; simpl; [by destruct s|].
  destruct s as [|c' s]; [done|]. simpl. destruct (ascii_dec c c'); [apply IH | done].
Qed.

(** The identifier of a new reservation lies under the prefix of its day. *)
Lemma new_reservation_id_prefix w now :
  strftime "%Y-%m-%d" now = strftime "%Y-%m-%d" (clock w 0%nat) →
  String.prefix (reservation_prefix now) (new_reservation_id w) = true.
Proof.
  intros Hday. unfold reservation_prefix, new_reservation_id. rewrite Hday.
  do 2 apply prefix_append_mono. apply (prefix_append ":").
Qed.

(** ** Creating reservations *)

(** A reservation that has been created is counted from then on, and goes
    away when removed.  After [create_reservation] has returned an id that
    was free, the total over the user's reservations of that day is the
    earlier total plus the reservation size, the totals of the other users
    are as before, and a removal of that id which the store accepts gives
    back the table as it was. *)
Theorem created_reservation_is_counted
    (self : TokenReservationManager.t) (environ : gmap string Z)
    (user_id reservation_id : string) (w w' : World) :
  TokenReservationManager.create_reservation self environ user_id w
    = (Ok (Some reservation_id), w') →
  table w !! (user_id, reservation_id) = None →
  let amount :=
    reservation_amount_of (environ_get_int environ "DAILY_OUTPUT_LIMIT" 20000) in
  (∀ now, strftime "%Y-%m-%d" now = strftime "%Y-%m-%d" (clock w 0%nat) →
     sum_output_tokens (todays_reservation user_id now) (table w')
     = sum_output_tokens (todays_reservation user_id now) (table w) + amount) ∧
  (∀ other now, other ≠ user_id →
     sum_output_tokens (todays_reservation other now) (table w')
     = sum_output_tokens (todays_reservation other now) (table w)) ∧
  (faults w' DeleteItem 0%nat = false →
   table (TokenReservationManager.remove_reservation self user_id reservation_id w').2
   = table w).
Proof.
  intros Hcreate Hfresh amount.
  apply manager_create_reservation_Some in Hcreate as [-> Htable].
  split_and!.
  - intros now Hday. rewrite Htable, sum_output_tokens_insert by done.
    unfold todays_reservation at 1. cbn.
    rewrite bool_decide_eq_true_2, new_reservation_id_prefix by done. cbn.
    unfold attr_N.
    destruct (new_reservation_item_lookup self environ user_id w) as [_ ->].
    fold amount. lia.
  - intros other now Hother. rewrite Htable, sum_output_tokens_insert by done.
    unfold todays_reservation at 1. cbn.
    rewrite bool_decide_eq_false_2 by done. cbn. lia.
  - intros Hdel. rewrite remove_reservation_run, Hdel. cbn.
    rewrite Htable. by apply delete_insert_id.
Qed.

(** A second reservation made on 2025-01-08 brings the day's total from
    10000 to 20000. *)
Lemma created_reservation_is_counted_witness :
  let w := world_at jan8 jan8 stale_reservation in
  let self := TokenLimiter.reservation_manager default_limiter in
  let run := TokenReservationManager.create_reservation self ∅ "alice" w in
  run.1 = Ok (Some "reservation:daily:2025-01-08:4f1c") ∧
  table w !! ("alice", "reservation:daily:2025-01-08:4f1c") = None ∧
  sum_output_tokens (todays_reservation "alice" jan8_1027) (table w) = 10000 ∧
  sum_output_tokens (todays_reservation "alice" jan8_1027) (table run.2) = 20000.
Proof.
  intros w self run.
  assert (run.1 = Ok (Some "reservation:daily:2025-01-08:4f1c")) as Hrun by by_vm.
  assert (table w !! ("alice", "reservation:daily:2025-01-08:4f1c") = None) as Hfresh
    by by_vm.
  destruct (created_reservation_is_counted self ∅ "alice" _ w run.2
              (run_eq _ _ _ Hrun) Hfresh) as (Hcount & _).
  split_and!; [exact Hrun | exact Hfresh | by_vm |].
  rewrite (Hcount jan8_1027) by by_vm. by_vm.
Defined.

(** ** Sweeping expired reservations *)

Lemma consume_fault_healthy m w :
  (∀ k, faults w m k = false) → ∀ k, faults (consume_fault m w) m k = false.
Proof. intros H k. cbn. by destruct (decide (m = m)). Qed.

(** The sweep of the records [l] of one user: the expired ones are deleted,
    in turn, and counted. *)
Lemma cleanup_items_run self user_id now
    (l : list (string * string * gmap string AttributeValue)) n w :
  (∀ k, faults w DeleteItem k = false) →
  (∀ kv, kv ∈ l → kv.1.1 = user_id) →
  ∃ w',
    cleanup_items self user_id (int_timestamp now)
      ((λ kv, with_key kv.1 kv.2) <$> l) n w
    = (Ok (Z.of_nat (length (filter (λ kv, expired now kv.2 = true) l)) + n), w') ∧
    table w'
    = foldl (λ t key, delete key t) (table w)
        (filter (λ kv, expired now kv.2 = true) l).*1 ∧
    outbox w' = outbox w ∧
    (∀ k, faults w' DeleteItem k = false).
Proof.
  revert n w. induction l as [|[key item] l IH]; intros n w Hhealthy Huser.
  - exists w. by cbn.
  - cbn [fmap list_fmap cleanup_items]. cbn [fst snd].
    rewrite attr_N_with_key by done. rewrite filter_cons. cbn [snd].
    fold (expired now item).
    destruct (expired now item) eqn:Hexp.
    + rewrite with_key_period_id. unfold mbind, M_bind, bind.
      rewrite remove_reservation_run, Hhealthy. cbn [fst snd].
      destruct (IH (n + 1) (set_table (delete (user_id, key.2) (table w))
                              (consume_fault DeleteItem w)))
        as (w' & -> & Htable & Hout & Hfaults).
      { intros k. by apply consume_fault_healthy. }
      { intros kv Hkv. apply Huser. by apply elem_of_cons; right. }
      exists w'. rewrite decide_True by done. cbn [length fmap list_fmap foldl fst].
      split_and!; [do 2 f_equal; lia | | done | done].
      rewrite Htable. cbn. f_equal. f_equal.
      specialize (Huser (key, item)). cbn in Huser. rewrite <- Huser; [by destruct key|].
      apply elem_of_cons; by left.
    + destruct (IH n w) as (w' & -> & Htable & Hout & Hfaults); [done| |].
      { intros kv Hkv. apply Huser. by apply elem_of_cons; right. }
      exists w'. by rewrite decide_False by done.
Qed.

Lemma lookup_foldl_delete {A} (keys : list (string * string))
    (t : gmap (string * string) A) key :
  foldl (λ t key, delete key t) t keys !! key
  = if decide (key ∈ keys) then None else t !! key.
Proof.
  revert t. induction keys as [|k keys IH]; intros t; cbn.
  - rewrite decide_False; [done | apply not_elem_of_nil].
  - rewrite IH. destruct (decide (key ∈ keys)) as [Hin|Hnotin].
    + rewrite decide_True; [done | by apply elem_of_cons; right].
    + destruct (decide (key = k)) as [->|Hne].
      * rewrite lookup_delete_eq, decide_True; [done | by apply elem_of_cons; left].
      * rewrite lookup_delete_ne by done.
        rewrite decide_False; [done|]. by intros [?|?]%elem_of_cons.
Qed.

Lemma swept_selected (user_id : string) (now : datetime) key item :
  swept user_id now key item = true ↔
  (key.1 = user_id ∧ key_matches (BeginsWith "reservation:") key.2 = true)
  ∧ expired now item = true.
Proof.
  unfold swept. cbn [key_matches].
  rewrite !andb_true_iff, bool_decide_eq_true. tauto.
Qed.

(** The table after the expired records among those selected are deleted. *)
Lemma sweep_table (user_id : string) (now : datetime) (t : gmap (string * string) (gmap string AttributeValue)) :
  foldl (λ t key, delete key t) t
    (filter (λ kv, expired now kv.2 = true)
       (map_to_list (selected user_id (BeginsWith "reservation:") t))).*1
  = filter (λ kv, swept user_id now kv.1 kv.2 = false) t.
Proof.
  apply map_eq. intros key. rewrite lookup_foldl_delete.
  apply option_eq. intros item. rewrite map_lookup_filter_Some. cbn [fst snd].
  destruct (decide _) as [Hin|Hnotin].
  - split; [done|]. intros [Hitem Hswept]. exfalso.
    apply list_elem_of_fmap in Hin as ([key' item'] & -> & Hin). cbn [fst snd] in *.
    apply list_elem_of_filter in Hin as [Hexp Hin]. cbn in Hexp.
    apply elem_of_map_to_list, map_lookup_filter_Some in Hin as [Hitem' Hsel].
    cbn in Hitem', Hsel. rewrite Hitem in Hitem'. injection Hitem' as <-.
    apply not_true_iff_false in Hswept. apply Hswept, swept_selected. cbn. done.
  - split; [|by intros [? _]]. intros Hitem. split; [done|].
    apply not_true_iff_false. intros [Hsel Hexp]%swept_selected.
    apply Hnotin. apply list_elem_of_fmap. exists (key, item). split; [done|].
    apply list_elem_of_filter. split; [done|].
    apply elem_of_map_to_list, map_lookup_filter_Some. done.
Qed.

(** The number of records a sweep deletes. *)
Lemma sweep_count (user_id : string) (now : datetime) (t : gmap (string * string) (gmap string AttributeValue)) :
  length (filter (λ kv, expired now kv.2 = true)
            (map_to_list (selected user_id (BeginsWith "reservation:") t)))
  = size (filter (λ kv, swept user_id now kv.1 kv.2 = true) t).
Proof.
  unfold selected.
  induction t as [|key item t Hnone IH] using map_ind.
  - by rewrite !map_filter_empty, map_to_list_empty, map_size_empty.
  - destruct (decide (key.1 = user_id
                      ∧ key_matches (BeginsWith "reservation:") key.2 = true)) as [Hsel|Hsel].
    + rewrite (map_filter_insert_True _ t) by done.
      rewrite map_to_list_insert by (by rewrite map_lookup_filter_None; left).
      rewrite filter_cons. cbn [snd].
      destruct (decide (expired now item = true)) as [Hexp|Hexp].
      * rewrite map_filter_insert_True by (by apply swept_selected).
        rewrite map_size_insert_None by (by rewrite map_lookup_filter_None; left).
        cbn [length]. by rewrite IH.
      * rewrite map_filter_insert_not'; [done | by intros [_ ?]%swept_selected |].
        intros y Hy. congruence.
    + rewrite (map_filter_insert_not _ t) by (by intros ?).
      rewrite map_filter_insert_not by (by intros ? [? _]%swept_selected).
      done.
Qed.

Lemma cleanup_items_total self user_id current_timestamp
    (l : list (string * string * gmap string AttributeValue)) n w :
  ∃ m w',
    cleanup_items self user_id current_timestamp ((λ kv, with_key kv.1 kv.2) <$> l) n w
    = (Ok m, w').
Proof.
  revert n w. induction l as [|[key item] l IH]; intros n w; [by eexists _, _|].
  cbn [fmap list_fmap cleanup_items]. cbn [fst snd].
  destruct (_ && _); [|apply IH].
  rewrite with_key_period_id. unfold mbind, M_bind, bind.
  rewrite remove_reservation_run. destruct (faults w DeleteItem 0%nat); apply IH.
Qed.

Lemma sum_output_tokens_filter
    (keep Q : string * string → gmap string AttributeValue → bool) (b : bool)
    (t : gmap (string * string) (gmap string AttributeValue)) :
  sum_output_tokens keep (filter (λ kv, Q kv.1 kv.2 = b) t)
  = sum_output_tokens (λ key item, keep key item && Bool.eqb (Q key item) b) t.
Proof.
  induction t as [|key item t Hnone IH] using map_ind.
  - by rewrite map_filter_empty.
  - rewrite (sum_output_tokens_insert _ t) by done. rewrite <- IH.
    destruct (decide (Q key item = b)) as [HQ|HQ].
    + rewrite map_filter_insert_True by done.
      rewrite sum_output_tokens_insert by (by rewrite map_lookup_filter_None; left).
      by rewrite HQ, eqb_reflx, andb_true_r.
    + rewrite map_filter_insert_not'; [| done | intros; congruence].
      destruct (Bool.eqb (Q key item) b) eqn:Heq; [by apply eqb_prop in Heq|].
      rewrite andb_false_r. lia.
Qed.

Lemma cleanup_expired_reservations_run self user_id w :
  cleanup_expired_reservations self user_id w =
    let w1 := consume_fault Query (advance_clock w) in
    if faults w Query 0%nat then (Ok 0, w1)
    else
      match cleanup_items self user_id (int_timestamp (clock w 0%nat))
              ((λ kv, with_key kv.1 kv.2) <$>
                 map_to_list (selected user_id (BeginsWith "reservation:") (table w)))
              0 w1 with
      | (Ok n, w') => (Ok n, w')
      | (Raise _, w') => (Ok 0, w')
      end.
Proof.
  unfold cleanup_expired_reservations. run_M. cbn.
  by destruct (faults w Query 0%nat).
Qed.

(** A sweep deletes exactly the user's reservation records, of any day,
    whose TTL has elapsed, and returns how many there were, when the store
    accepts its calls; the total read afterwards is then the one over the
    non-expired reservations of the day.  A sweep never raises; when its
    query fails it returns 0 and leaves the table alone. *)
Theorem sweep_removes_expired_reservations
    (self : TokenReservationManager.t) (user_id : string) (w : World) :
  let now := clock w 0%nat in
  (∃ n w', cleanup_expired_reservations self user_id w = (Ok n, w')) ∧
  (faults w Query 0%nat = true →
   ∃ w', cleanup_expired_reservations self user_id w = (Ok 0, w') ∧ table w' = table w) ∧
  (faults w Query 0%nat = false → (∀ k, faults w DeleteItem k = false) →
   ∃ w',
     cleanup_expired_reservations self user_id w
       = (Ok (Z.of_nat (size (filter (λ kv, swept user_id now kv.1 kv.2 = true) (table w)))),
          w') ∧
     table w' = filter (λ kv, swept user_id now kv.1 kv.2 = false) (table w) ∧
     sum_output_tokens (todays_reservation user_id now) (table w')
     = spec_total_reserved (table w) user_id now).
Proof.
  intros now0. rewrite cleanup_expired_reservations_run. cbn zeta.
  set (w1 := consume_fault Query (advance_clock w)).
  set (l := map_to_list (selected user_id (BeginsWith "reservation:") (table w))).
  destruct (faults w Query 0%nat) eqn:Hquery.
  - split_and!; [by eexists _, _ | by eexists | intros [=]].
  - split_and!; [| intros [=] |].
    + destruct (cleanup_items_total self user_id (int_timestamp (clock w 0%nat)) l 0 w1)
        as (m & w' & ->). by eexists _, _.
    + intros _ Hdelete.
      destruct (cleanup_items_run self user_id now0 l 0 w1) as (w' & Hrun & Htable & _).
      { intros k. apply Hdelete. }
      { intros [key item] [_ [Hu _]]%elem_of_map_to_list%map_lookup_filter_Some. done. }
      fold now0. rewrite Hrun. exists w'. rewrite Z.add_0_r. split_and!.
      * do 3 f_equal. apply sweep_count.
      * rewrite Htable. apply sweep_table.
      * rewrite Htable. unfold l. cbn [table w1 consume_fault advance_clock].
        rewrite sweep_table.
        rewrite (sum_output_tokens_filter _ (swept user_id now0) false).
        apply sum_output_tokens_ext. intros key item _.
        unfold swept, todays_reservation.
        destruct (bool_decide (key.1 = user_id)); cbn; [|done].
        destruct (String.prefix (reservation_prefix now0) key.2) eqn:Hp; cbn; [|done].
        unfold reservation_prefix in Hp.
        change ("reservation:daily:" +:+ strftime "%Y-%m-%d" now0 +:+ ":")
          with ("reservation:" +:+ ("daily:" +:+ strftime "%Y-%m-%d" now0 +:+ ":")) in Hp.
        by rewrite (prefix_append_l _ _ _ Hp); destruct (expired now0 item).
Qed.

(** At 11:00 the sweep removes the reservation that ran out at 10:35:30 and
    keeps the live one and the usage bucket. *)
Lemma sweep_removes_expired_reservations_witness :
  let w := world_at jan8_1100 jan8_1100 mixed_records in
  let self := TokenLimiter.reservation_manager default_limiter in
  let run := cleanup_expired_reservations self "alice" w in
  faults w Query 0%nat = false ∧ (∀ k, faults w DeleteItem k = false) ∧
  run.1 = Ok 1 ∧
  table run.2 !! ("alice", "reservation:daily:2025-01-08:a1") = None ∧
  sum_output_tokens (todays_reservation "alice" jan8_1100) (table run.2) = 10000.
Proof.
  intros w self run.
  destruct (sweep_removes_expired_reservations self "alice" w) as (_ & _ & Hsweep).
  destruct Hsweep as (w' & Hrun & Htable & Hsum); [reflexivity | intros k; reflexivity |].
  unfold run. rewrite Hrun. cbn [fst snd].
  split_and!; [reflexivity | intros k; reflexivity | by_vm | rewrite Htable; by_vm |].
  etrans; [exact Hsum | by_vm].
Defined.

(** ** Reservations and the usage of the standard policies *)

Lemma prefix_cons_inv (a : ascii) (p s : string) :
  String.prefix (String a p) s = true →
  ∃ s', s = String a s' ∧ String.prefix p s' = true.
Proof.
  destruct s as [|c s]; [done|]. simpl.
  destruct (ascii_dec a c) as [<-|]; [|done]. eauto.
Qed.

Lemma leb_reservation_10min (s x : string) :
  String.prefix "reservation:" s = true → String.leb s ("10min:" +:+ x) = false.
Proof. intros (s' & -> & _)%prefix_cons_inv. reflexivity. Qed.

Lemma usage_condition_ten_minute environ input_limit output_limit now :
  usage_condition (create_ten_minute_period environ input_limit output_limit) now
  = Between
      ("10min:" +:+ strftime "%Y-%m-%d:%H:%M" (datetime_sub now (timedelta_of 1 0)))
      ("10min:" +:+ strftime "%Y-%m-%d:%H:%M" now).
Proof. reflexivity. Qed.

Lemma reservation_key_not_selected cfg now user_id (key : string * string) :
  (∃ environ input_limit output_limit,
     cfg = create_ten_minute_period environ input_limit output_limit) →
  String.prefix "reservation:" key.2 = true →
  ¬ (key.1 = user_id ∧ key_matches (usage_condition cfg now) key.2 = true).
Proof.
  intros (environ & il & ol & ->) Hkey [_ Hmatch].
  rewrite usage_condition_ten_minute in Hmatch. unfold key_matches in Hmatch.
  apply andb_true_iff in Hmatch as [_ Hle].
  by rewrite (leb_reservation_10min _ _ Hkey) in Hle.
Qed.

Lemma reservation_key_not_bucket cfg now (user_id : string) (key : string * string) :
  (∃ environ input_limit output_limit,
     cfg = create_monthly_period environ input_limit output_limit ∨
     cfg = create_hourly_period environ input_limit output_limit) →
  String.prefix "reservation:" key.2 = true →
  key ≠ (user_id, id_format cfg now).
Proof.
  intros (environ & il & ol & Hcfg) (s' & Hs & _)%prefix_cons_inv ->.
  destruct Hcfg as [-> | ->]; discriminate Hs.
Qed.

(** Reservation records never show in the usage of the module's policies:
    writing or deleting a record whose sort key begins with "reservation:"
    leaves what a 10-minute, monthly or hourly meter reads, input and output
    tokens alike, as it was. *)
Theorem reservations_leave_usage_alone
    (self : TokenMeter.t) (user_id : string) (w : World)
    (key : string * string) (item : gmap string AttributeValue) :
  standard_period (TokenMeter.period_config self) →
  String.prefix "reservation:" key.2 = true →
  (TokenMeter._get_usage self user_id (set_table (<[key := item]> (table w)) w)).1
    = (TokenMeter._get_usage self user_id w).1 ∧
  (TokenMeter._get_usage self user_id (set_table (delete key (table w)) w)).1
    = (TokenMeter._get_usage self user_id w).1.
Proof.
  intros (environ & il & ol & Hcfg) Hkey. rewrite !get_usage_run. cbn [fst].
  cbn [faults clock table set_table].
  destruct (faults w _ 0%nat); [done|].
  destruct Hcfg as [Hcfg | Hcfg].
  - assert (aggregate (TokenMeter.period_config self) = true) as -> by by rewrite Hcfg.
    unfold selected.
    pose proof (reservation_key_not_selected (TokenMeter.period_config self)
                  (clock w 0%nat) user_id key (ex_intro _ _ (ex_intro _ _ (ex_intro _ _ Hcfg)))
                  Hkey) as Hnot.
    rewrite map_filter_insert_not by (intros y; exact Hnot).
    rewrite map_filter_delete, delete_id; [done|].
    apply map_lookup_filter_None. right. intros y _. exact Hnot.
  - assert (aggregate (TokenMeter.period_config self) = false) as ->
      by (by destruct Hcfg as [-> | ->]).
    pose proof (reservation_key_not_bucket (TokenMeter.period_config self)
                  (clock w 0%nat) user_id key (ex_intro _ _ (ex_intro _ _ (ex_intro _ _ Hcfg)))
                  Hkey) as Hne.
    by rewrite lookup_insert_ne, lookup_delete_ne.
Qed.

(** The daily meter reads 500 and 700 tokens whether or not a reservation
    of alice is in the table. *)
Lemma reservations_leave_usage_alone_witness :
  let w := world_at jan8 jan8 earlier_bucket in
  let key := ("alice", "reservation:daily:2025-01-08:4f1c") in
  let w' := set_table (<[key := reservation_record 10000 1736332530]> (table w)) w in
  (TokenMeter._get_usage daily_meter "alice" w).1
    = Ok {| input_tokens := 500; output_tokens := 700 |} ∧
  (TokenMeter._get_usage daily_meter "alice" w').1
    = Ok {| input_tokens := 500; output_tokens := 700 |}.
Proof.
  intros w key w'.
  destruct (reservations_leave_usage_alone daily_meter "alice" w key
              (reservation_record 10000 1736332530)) as [Hinsert _].
  - by exists ∅, None, None; left.
  - reflexivity.
  - assert ((TokenMeter._get_usage daily_meter "alice" w).1
            = Ok {| input_tokens := 500; output_tokens := 700 |}) as Hread by by_vm.
    split; [exact Hread|]. unfold w'. by rewrite Hinsert.
Defined.

(** ** Recording and reading back *)

Lemma monthly_bucket_id environ input_limit output_limit (t1 t2 : datetime) :
  year t1 = year t2 → month t1 = month t2 →
  let cfg := create_monthly_period environ input_limit output_limit in
  id_format cfg t2 = bucket_id cfg t1.
Proof.
  intros Hy Hm cfg. unfold bucket_id, cfg. cbn [id_format round_time create_monthly_period].
  change (strftime "%Y-%m" t2) with (pad4 (year t2) +:+ "-" +:+ pad2 (month t2)).
  by rewrite <- Hy, <- Hm.
Qed.

(** A meter that reads its usage by direct lookup reads back what was
    recorded: after a record call that succeeded, a read of the same bucket
    that the store answers gives the bucket's earlier counters plus the
    recorded token counts. *)
Theorem direct_meter_reads_what_it_recorded
    (self : TokenMeter.t) (user_id : string) (input_tokens output_tokens : Z)
    (w w1 : World) :
  let cfg := TokenMeter.period_config self in
  let key := (user_id, bucket_id cfg (clock w 0%nat)) in
  aggregate cfg = false →
  TokenMeter.update_usage self user_id input_tokens output_tokens w = (Ok true, w1) →
  faults w1 GetItem 0%nat = false →
  id_format cfg (clock w1 0%nat) = bucket_id cfg (clock w 0%nat) →
  (TokenMeter._get_usage self user_id w1).1
  = Ok {| input_tokens := counter (table w) key "input_tokens" + input_tokens;
          output_tokens := counter (table w) key "output_tokens" + output_tokens |}.
Proof.
  intros cfg key Hdirect Hrecord Hread Hbucket.
  rewrite update_usage_run in Hrecord. fold cfg key in Hrecord.
  destruct (faults w UpdateItem 0%nat); [discriminate|].
  destruct (fold_left _ _ _) as [item|] eqn:Hfold; [|discriminate].
  injection Hrecord as <-.
  apply usage_actions_Some in Hfold as (Hin & Hout & _).
  rewrite get_usage_run. fold cfg. unfold read_method. rewrite Hdirect.
  cbn [fst]. rewrite Hread. cbn [table set_table clock consume_fault advance_clock].
  cbn [clock set_table consume_fault advance_clock] in Hbucket. rewrite Hbucket.
  fold key. rewrite lookup_insert_eq. cbn -[with_key attr_N].
  rewrite !attr_N_with_key by done. unfold attr_N at 1 2. by rewrite Hin, Hout.
Qed.

(** After 100 and 900 tokens are recorded in January's bucket, which held
    50000 and 800, the monthly meter reads 50100 and 1700. *)
Lemma direct_meter_reads_what_it_recorded_witness :
  let w := world_at jan8 jan8_1027 daily_exhausted in
  let run := TokenMeter.update_usage monthly_meter "alice" 100 900 w in
  run.1 = Ok true ∧
  counter (table w) ("alice", "monthly:2025-01") "input_tokens" = 50000 ∧
  counter (table w) ("alice", "monthly:2025-01") "output_tokens" = 800 ∧
  (TokenMeter._get_usage monthly_meter "alice" run.2).1
  = Ok {| input_tokens := 50100; output_tokens := 1700 |}.
Proof.
  intros w run.
  assert (run.1 = Ok true) as Hrun by by_vm.
  split_and!; [exact Hrun | by_vm | by_vm |].
  rewrite (direct_meter_reads_what_it_recorded monthly_meter "alice" 100 900 w run.2);
    [by_vm | reflexivity | exact (run_eq _ _ _ Hrun) | by_vm |].
  apply (monthly_bucket_id ∅ None None); by_vm.
Defined.

(** ** Recording on every meter *)

Lemma meter_results_total meters user_id i o w :
  ∃ oks w', meter_results meters user_id i o w = (Ok oks, w')
            ∧ length oks = length meters.
Proof.
  revert w. induction meters as [|meter rest IH]; intros w; cbn [meter_results].
  - by eexists [], w.
  - unfold mbind, M_bind, bind.
    destruct (update_usage_total meter user_id i o w) as (ok & w1 & ->).
    destruct (IH w1) as (oks & w' & -> & Hlen).
    eexists (ok :: oks), w'. split; [done|]. cbn. by rewrite Hlen.
Qed.

Lemma update_meters_results meters user_id i o success w oks w' :
  meter_results meters user_id i o w = (Ok oks, w') →
  TokenLimiter.update_meters meters user_id i o success w
  = (Ok (success && forallb id oks), w').
Proof.
  revert success w oks. induction meters as [|meter rest IH]; intros success w oks;
    cbn [meter_results TokenLimiter.update_meters].
  - intros [= <- <-]. cbn. by rewrite andb_true_r.
  - unfold mbind, M_bind, bind.
    destruct (update_usage_total meter user_id i o w) as (ok & w1 & ->).
    destruct (meter_results_total rest user_id i o w1) as (oks' & w2 & Hrest & _).
    rewrite Hrest. intros [= <- <-]. rewrite (IH _ _ _ Hrest). cbn.
    by destruct ok, success.
Qed.

(** Recording through the limiter calls [update_usage] on every meter, in
    list order and whatever the earlier ones returned, and returns true
    exactly when every one of these calls returned true. *)
Theorem limiter_records_on_every_meter
    (self : TokenLimiter.t) (user_id : string) (input_tokens output_tokens : Z)
    (w : World) :
  ∃ oks w',
    meter_results (TokenLimiter.meters self) user_id input_tokens output_tokens w
      = (Ok oks, w') ∧
    length oks = length (TokenLimiter.meters self) ∧
    TokenLimiter.update_usage self user_id input_tokens output_tokens w
      = (Ok (forallb id oks), w') ∧
    (forallb id oks = true ↔ ∀ ok, ok ∈ oks → ok = true).
Proof.
  destruct (meter_results_total (TokenLimiter.meters self) user_id
              input_tokens output_tokens w) as (oks & w' & Hrun & Hlen).
  exists oks, w'. split_and!; [done | done | |].
  - unfold TokenLimiter.update_usage. by rewrite (update_meters_results _ _ _ _ _ _ _ _ Hrun).
  - rewrite forallb_forall. split.
    + intros Hall ok Hok. apply Hall. by apply list_elem_of_In.
    + intros Hall ok Hok. apply Hall. by apply list_elem_of_In.
Qed.

(** ** The handler and its reservation *)

Lemma limiter_create_reservation_total self environ user_id w :
  ∃ r w', TokenLimiter.create_reservation self environ user_id w = (Ok r, w').
Proof.
  rewrite create_reservation_run.
  destruct (with_reservation_total self environ user_id w)
    as ([[[[] token_type] period] usage_data] & w1 & -> & _); [eauto|].
  rewrite manager_create_reservation_run. cbn zeta.
  destruct (faults w1 PutItem 0%nat); eauto.
Qed.

Lemma limiter_remove_reservation_total self user_id reservation_id w :
  ∃ ok w', TokenLimiter.remove_reservation self user_id reservation_id w = (Ok ok, w').
Proof.
  unfold TokenLimiter.remove_reservation. rewrite remove_reservation_run.
  destruct (faults w DeleteItem 0%nat); eauto.
Qed.

Lemma lambda_handler_held token_limiter environ sub process_events w token_type period
    token_usage w1 reservation_id w2 :
  TokenLimiter.is_limit_exceeded token_limiter sub w
    = (Ok (false, token_type, period, token_usage), w1) →
  TokenLimiter.create_reservation token_limiter environ sub w1
    = (Ok (Some reservation_id), w2) →
  lambda_handler token_limiter environ sub process_events w
  = let processed := process_events token_usage reservation_id w2 in
    let w3 :=
      match processed.1 with
      | Ok _ => processed.2
      | Raise e =>
          push_event
            {| error_type := "internal_server_error";
               message := "An unexpected error occurred while processing your request";
               details := Some (ErrorDetails e) |} processed.2
      end in
    (Ok tt, (TokenLimiter.remove_reservation token_limiter sub reservation_id w3).2).
Proof.
  intros Hcheck Hcreate.
  unfold lambda_handler, try_except, mbind, M_bind, bind.
  rewrite Hcheck, Hcreate. unfold mret, M_ret, ret. cbn zeta.
  destruct (process_events token_usage reservation_id w2) as [[[]|e] w3]; cbn [fst snd].
  - by destruct (limiter_remove_reservation_total token_limiter sub reservation_id w3)
      as (ok & w' & ->).
  - unfold send_error_event, publish_to_channel.
    match goal with
    | |- context [TokenLimiter.remove_reservation _ _ _ ?w4] =>
        by destruct (limiter_remove_reservation_total token_limiter sub reservation_id w4)
          as (ok & w' & ->)
    end.
Qed.

(** The handler never lets an exception escape: whatever the store answers
    and whatever the processing of the events does, raising included, it
    returns normally. *)
Theorem handler_never_raises
    (token_limiter : TokenLimiter.t) (environ : gmap string Z) (sub : string)
    (process_events : gmap string Z → string → M unit) (w : World) :
  (lambda_handler token_limiter environ sub process_events w).1 = Ok tt.
Proof.
  destruct (limiter_is_limit_exceeded_total token_limiter sub w)
    as ([[[is_exceeded token_type] period] token_usage] & w1 & Hcheck & _).
  destruct is_exceeded.
  - unfold lambda_handler, try_except, mbind, M_bind, bind. by rewrite Hcheck.
  - destruct (limiter_create_reservation_total token_limiter environ sub w1)
      as ([reservation_id|] & w2 & Hcreate).
    + by rewrite (lambda_handler_held _ _ _ _ _ _ _ _ _ _ _ Hcheck Hcreate).
    + by rewrite (lambda_handler_denied _ _ _ _ _ _ _ _ _ _ Hcheck Hcreate).
Qed.



(** ** What a denial rests on *)

Lemma observations_sound meters user_id w obs w' :
  observations meters user_id w = (Ok obs, w') →
  ∀ o, o ∈ obs →
    let cfg := TokenMeter.period_config (obs_meter o) in
    (obs_exceeded o, obs_token_type o)
    = if input_limit cfg <=? input_tokens (obs_usage o) then (true, Some "input")
      else if output_limit cfg <=? output_tokens (obs_usage o) then (true, Some "output")
      else (false, None).
Proof.
  revert w obs. induction meters as [|meter rest IH]; intros w obs; cbn [observations].
  - intros [= <- <-] o Ho. by apply elem_of_nil in Ho.
  - unfold mbind, M_bind, bind.
    rewrite meter_is_limit_exceeded_run, get_usage_run. cbn zeta.
    set (usage := if faults w _ 0%nat then _ else _).
    set (w1 := consume_fault _ _).
    destruct (input_limit _ <=? input_tokens usage) eqn:Hin;
      [|destruct (output_limit _ <=? output_tokens usage) eqn:Hout].
    + intros [= <- <-] o ->%list_elem_of_singleton. cbn. by rewrite Hin.
    + intros [= <- <-] o ->%list_elem_of_singleton. cbn. by rewrite Hin, Hout.
    + destruct (observations rest user_id w1) as [[obs'|e] w2] eqn:Hrest; [|done].
      intros [= <- <-] o [->|Ho]%elem_of_cons.
      * cbn. by rewrite Hin, Hout.
      * by eapply IH.
Qed.

Lemma observed_max_ge (values : list Z) (v : Z) : v ∈ values → v ≤ observed_max values.
Proof.
  unfold observed_max. induction values as [|v' values IH]; cbn.
  - by intros ?%elem_of_nil.
  - intros [->|Hv]%elem_of_cons; [lia|]. specialize (IH Hv). lia.
Qed.

Lemma check_meters_max_usage obs (o : Observation) :
  o ∈ obs →
  input_tokens (obs_usage o)
    ≤ dict_get (foldl record_observation TokenLimiter.initial_usage obs) "input_tokens" ∧
  output_tokens (obs_usage o)
    ≤ dict_get (foldl record_observation TokenLimiter.initial_usage obs) "output_tokens".
Proof.
  intros Ho. unfold dict_get. split.
  - rewrite (foldl_record_lookup "input_tokens"
               (λ v o, Z.max v (input_tokens (obs_usage o)))) with (v := 0).
    + cbn [default]. rewrite foldl_max_observed by done.
      assert (input_tokens (obs_usage o)
              ≤ observed_max ((λ o, input_tokens (obs_usage o)) <$> obs)) as Hge
        by (apply observed_max_ge, list_elem_of_fmap; eauto).
      unfold id. lia.
    + intros total_usage o' v Hv. unfold record_observation.
      destruct (record_meter_lookup (name (TokenMeter.period_config (obs_meter o')))
                  (obs_usage o') total_usage) as (-> & _).
      unfold dict_get. by rewrite Hv.
    + done.
  - rewrite (foldl_record_lookup "output_tokens"
               (λ v o, Z.max v (output_tokens (obs_usage o)))) with (v := 0).
    + cbn [default]. rewrite foldl_max_observed by done.
      assert (output_tokens (obs_usage o)
              ≤ observed_max ((λ o, output_tokens (obs_usage o)) <$> obs)) as Hge
        by (apply observed_max_ge, list_elem_of_fmap; eauto).
      unfold id. lia.
    + intros total_usage o' v Hv. unfold record_observation.
      destruct (record_meter_lookup (name (TokenMeter.period_config (obs_meter o')))
                  (obs_usage o') total_usage) as (_ & -> & _).
      unfold dict_get. by rewrite Hv.
    + done.
Qed.

(** A denial by the limit check is never unfounded: it names the period of
    one of the limiter's policies, and the usage it reports for the named
    token type has reached that policy's limit. *)
Theorem denial_names_a_reached_limit
    (self : TokenLimiter.t) (user_id : string) (w w' : World)
    (token_type period : option string) (usage_data : gmap string Z) :
  TokenLimiter.is_limit_exceeded self user_id w
    = (Ok (true, token_type, period, usage_data), w') →
  ∃ meter,
    meter ∈ TokenLimiter.meters self ∧
    period = Some (description (TokenMeter.period_config meter)) ∧
    ((token_type = Some "input" ∧
      input_limit (TokenMeter.period_config meter) ≤ dict_get usage_data "input_tokens") ∨
     (token_type = Some "output" ∧
      output_limit (TokenMeter.period_config meter) ≤ dict_get usage_data "output_tokens")).
Proof.
  unfold TokenLimiter.is_limit_exceeded. intros Hrun.
  destruct (check_meters_observations (TokenLimiter.meters self) user_id
              TokenLimiter.initial_usage w)
    as (obs & w1 & Hobs & Hcheck & (unread & Hsplit & _) & _).
  rewrite Hcheck in Hrun. injection Hrun as Hverdict <- _.
  unfold verdict in Hverdict.
  destruct (last obs) as [o|] eqn:Hlast; [|done].
  destruct (obs_exceeded o) eqn:Hex; [|done].
  injection Hverdict as <- <-.
  assert (o ∈ obs) as Ho.
  { apply last_Some in Hlast as [l ->]. set_solver. }
  exists (obs_meter o). split_and!; [| done |].
  - rewrite Hsplit. apply elem_of_app. left. apply list_elem_of_fmap. eauto.
  - pose proof (observations_sound _ _ _ _ _ Hobs o Ho) as Hsound. cbn zeta in Hsound.
    destruct (check_meters_max_usage obs o Ho) as [Hin Hout].
    rewrite Hex in Hsound.
    destruct (input_limit _ <=? input_tokens (obs_usage o)) eqn:Hi;
      [|destruct (output_limit _ <=? output_tokens (obs_usage o)) eqn:Ho'];
      [left | right | done]; injection Hsound as ->; (split; [done|]); lia.
Qed.

(** With 10000 input tokens used in the day the default limiter denies
    for the daily input limit of 10000. *)
Lemma denial_names_a_reached_limit_witness :
  let w := world_at jan8 jan8_1027 daily_exhausted in
  ∃ meter usage_data,
    (TokenLimiter.is_limit_exceeded default_limiter "alice" w).1
      = Ok (true, Some "input", Some "daily", usage_data) ∧
    meter ∈ TokenLimiter.meters default_limiter ∧
    description (TokenMeter.period_config meter) = "daily" ∧
    input_limit (TokenMeter.period_config meter) ≤ dict_get usage_data "input_tokens".
Proof.
  intros w.
  assert ((TokenLimiter.is_limit_exceeded default_limiter "alice" w).1
          = Ok (true, Some "input", Some "daily",
                match (TokenLimiter.is_limit_exceeded default_limiter "alice" w).1 with
                | Ok r => r.2
                | Raise _ => ∅
                end)) as Hcheck by by_vm.
  pose proof (run_eq _ _ _ Hcheck) as Hrun.
  apply denial_names_a_reached_limit in Hrun as (meter & Hmeter & Hperiod & Hreached).
  destruct Hreached as [[_ Hlimit] | [Htype _]]; [|discriminate Htype].
  exists meter,
    (match (TokenLimiter.is_limit_exceeded default_limiter "alice" w).1 with
     | Ok r => r.2
     | Raise _ => ∅
     end).
  split; [exact Hcheck|].
  split; [exact Hmeter|].
  split; [|exact Hlimit].
  injection Hperiod as Hperiod. symmetry. exact Hperiod.
Defined.

(** ** Buckets *)

Lemma days_from_civil_day (y m d : Z) :
  days_from_civil y m d = days_from_civil y m 1 + (d - 1).
Proof. unfold days_from_civil. lia. Qed.

(** A bucket of the module's policies starts at or before the time it is
    written for and less than one bucket length before it, and rounding is
    idempotent: every time of a bucket is recorded under the bucket's own
    start. *)
Theorem bucket_holds_its_time (cfg : PeriodConfig) (now : datetime) :
  standard_period cfg →
  valid_time now →
  1 ≤ day now ≤ 31 →
  let start := round_time cfg now in
  0 ≤ datetime_diff now start < bucket_length cfg ∧
  round_time cfg start = start ∧
  bucket_id cfg start = bucket_id cfg now.
Proof.
  intros (environ & il & ol & Hcfg) (Hh & Hm & Hs & Hus) Hd start.
  assert (round_time cfg start = start) as Hfix.
  { unfold start. destruct Hcfg as [-> | [-> | ->]]; cbn; [|done..].
    f_equal. Z.to_euclidean_division_equations. lia. }
  split; [|split; [done|]].
  - unfold start.
    destruct Hcfg as [-> | [-> | ->]];
      unfold bucket_length, datetime_diff, datetime_to_micro, timedelta_of;
      cbn [name round_time create_ten_minute_period create_monthly_period
           create_hourly_period year month day hour minute second microsecond].
    + rewrite decide_True by done. Z.to_euclidean_division_equations. lia.
    + rewrite decide_False, decide_False by done.
      rewrite (days_from_civil_day _ _ (day now)). lia.
    + rewrite decide_False, decide_True by done. lia.
  - unfold bucket_id. by rewrite Hfix.
Qed.

(** At 10:25:30.123456 the 10-minute bucket started at 10:20, 5 minutes 30
    seconds and 123456 microseconds earlier. *)
Lemma bucket_holds_its_time_witness :
  let cfg := create_ten_minute_period ∅ None None in
  let start := round_time cfg jan8 in
  start = mk_datetime 2025 1 8 10 20 0 0 ∧
  0 ≤ datetime_diff jan8 start < bucket_length cfg ∧
  round_time cfg start = start ∧
  bucket_id cfg start = bucket_id cfg jan8.
Proof.
  intros cfg start. split; [reflexivity|].
  apply (bucket_holds_its_time cfg jan8).
  - exists ∅, None, None. by left.
  - unfold valid_time. cbn. lia.
  - cbn. lia.
Defined.

(** ** Channel authorisation *)

Lemma py_split_head (sep : ascii) (s t : string) :
  has_char sep s = false →
  head (py_split sep s) = Some s ∧
  head (py_split sep (s +:+ String sep t)) = Some s.
Proof.
  induction s as [|c s IH]; simpl.
  - intros _. by rewrite Ascii.eqb_refl.
  - destruct (Ascii.eqb c sep); [done|]. simpl. intros Hs.
    destruct (IH Hs) as [H1 H2].
    destruct (py_split sep s); [done|].
    destruct (py_split sep (s +:+ String sep t)); [done|].
    cbn in *. by simplify_eq.
Qed.

Lemma py_join_head (sep : ascii) (s : string) (rest : list string) :
  has_char sep s = false →
  head (py_split sep (py_join (String sep EmptyString) (s :: rest))) = Some s.
Proof.
  intros Hs. unfold py_join. destruct rest as [|r rest]; cbn [String.concat].
  - by apply py_split_head.
  - change (String sep EmptyString +:+ ?x) with (String sep x).
    by apply py_split_head.
Qed.

(** The handler checks the limits of the authorised [sub] and the message
    processing charges the first segment of the path: these are the same
    user.  When an event is authorised its channel has at least two
    segments, the second is the caller's [sub], the path is the channel
    without its first segment, and, for a [sub] that is not empty and has
    no "/", the user charged is that [sub]. *)
Theorem authorised_usage_is_charged_to_the_caller
    (event : AuthEvent) (caller path : option string) :
  validate_channel_auth event false = Auth3 true caller path →
  ∃ segment0 user rest,
    segments event = Some (segment0 :: user :: rest) ∧
    sub event = Some user ∧ caller = Some user ∧
    path = Some (py_join "/" (user :: rest)) ∧
    (user ≠ EmptyString → has_char "/" user = false →
     process_message_user_id (py_join "/" (user :: rest)) = Some user).
Proof.
  unfold validate_channel_auth.
  destruct (segments event) as [[|segment0 [|segment1 rest]]|]; [done..| |done].
  destruct (bool_decide (sub event = Some segment1)) eqn:Hsub; [|done].
  apply bool_decide_eq_true in Hsub. cbn [negb]. intros [= <- <-].
  exists segment0, segment1, rest. split_and!; [done..|].
  intros Hne Hslash. unfold process_message_user_id.
  pose proof (py_join_head "/" segment1 rest Hslash) as Hhead.
  destruct (py_split "/" (py_join "/" (segment1 :: rest))) as [|p ps]; [done|].
  cbn in Hhead. injection Hhead as ->. by rewrite bool_decide_eq_false_2.
Qed.

(** alice on the channel "/Inbound-Messages/alice/chat" is authorised for
    the path "alice/chat" and charged as "alice". *)
Lemma authorised_usage_is_charged_to_the_caller_witness :
  let event := {| segments := Some ["Inbound-Messages"; "alice"; "chat"];
                  sub := Some "alice" |} in
  validate_channel_auth event false = Auth3 true (Some "alice") (Some "alice/chat") ∧
  process_message_user_id "alice/chat" = Some "alice".
Proof.
  intros event. split; [reflexivity|].
  destruct (authorised_usage_is_charged_to_the_caller event (Some "alice")
              (Some "alice/chat") eq_refl)
    as (segment0 & user & rest & Hsegments & _ & _ & _ & Hcharged).
  injection Hsegments as <- <- <-. by apply Hcharged.
Defined.

(** A subscription is allowed exactly when the event is authorised, that
    is when the channel has at least two segments and the second one is the
    caller's [sub]; a caller without [sub] is never authorised, and both
    forms of the result agree on the verdict. *)
Theorem subscription_allowed_iff_authorised (event : AuthEvent) :
  let authorised :=
    match segments event with
    | Some (_ :: segment1 :: _) => bool_decide (sub event = Some segment1)
    | _ => false
    end in
  (subscribe_handler.lambda_handler event = None ↔ authorised = true) ∧
  (∃ path, validate_channel_auth event false = Auth3 authorised (sub event) path
           ∧ (is_Some path ↔ authorised = true)) ∧
  (sub event = None → authorised = false).
Proof.
  unfold subscribe_handler.lambda_handler, validate_channel_auth.
  destruct (segments event) as [[|segment0 [|segment1 rest]]|]; cbn zeta;
    try (split_and!; [by split | eexists; split; [done|]; split; [by intros [??]|done]
                      | done]).
  destruct (bool_decide (sub event = Some segment1)) eqn:Hsub; cbn.
  - split_and!; [done | eexists; split; [done|]; done |].
    apply bool_decide_eq_true in Hsub. by rewrite Hsub.
  - split_and!; [by split | eexists; split; [done|]; split; [by intros [??]|done] | done].
Qed.

(** ** The message tracker *)

Lemma append_assoc (a b c : string) : (a +:+ b) +:+ c = a +:+ (b +:+ c).
Proof.
  induction a as [|x a IH]; [done|].
  change (String x ((a +:+ b) +:+ c) = String x (a +:+ (b +:+ c))). by rewrite IH.
Qed.

Lemma append_empty_r (a : string) : a +:+ "" = a.
Proof.
  induction a as [|x a IH]; [done|].
  change (String x (a +:+ "") = String x a). by rewrite IH.
Qed.

Lemma process_stream_event_processed tracker ev w :
  MessageTracker.metadata_processed tracker = true →
  ∃ tracker',
    MessageTracker.process_stream_event tracker ev w = (Ok (false, tracker'), w) ∧
    MessageTracker.input_tokens tracker' = MessageTracker.input_tokens tracker ∧
    MessageTracker.output_tokens tracker' = MessageTracker.output_tokens tracker ∧
    MessageTracker.metadata_processed tracker' = true ∧
    MessageTracker.assistant_response tracker'
    = MessageTracker.assistant_response tracker
      +:+ default "" (content_block_delta_text ev).
Proof.
  intros Hdone. unfold MessageTracker.process_stream_event. rewrite Hdone.
  destruct (metadata_usage ev); destruct (content_block_delta_text ev) as [text|];
    eexists; (split; [reflexivity|]); cbn; split_and!; try done;
    by rewrite append_empty_r.
Qed.

Lemma process_stream_event_fresh tracker ev w :
  MessageTracker.metadata_processed tracker = false →
  metadata_usage ev = None →
  ∃ tracker',
    MessageTracker.process_stream_event tracker ev w = (Ok (false, tracker'), w) ∧
    MessageTracker.input_tokens tracker' = MessageTracker.input_tokens tracker ∧
    MessageTracker.output_tokens tracker' = MessageTracker.output_tokens tracker ∧
    MessageTracker.metadata_processed tracker' = false ∧
    MessageTracker.assistant_response tracker'
    = MessageTracker.assistant_response tracker
      +:+ default "" (content_block_delta_text ev).
Proof.
  intros Hfresh Hnone. unfold MessageTracker.process_stream_event.
  rewrite Hfresh, Hnone.
  destruct (content_block_delta_text ev) as [text|];
    eexists; (split; [reflexivity|]); cbn; split_and!; try done;
    by rewrite append_empty_r.
Qed.

Lemma process_stream_processed tracker stream w :
  MessageTracker.metadata_processed tracker = true →
  ∃ tracker',
    process_stream tracker stream w = (Ok (replicate (length stream) false, tracker'), w) ∧
    MessageTracker.input_tokens tracker' = MessageTracker.input_tokens tracker ∧
    MessageTracker.output_tokens tracker' = MessageTracker.output_tokens tracker ∧
    MessageTracker.assistant_response tracker'
    = MessageTracker.assistant_response tracker +:+ delta_texts stream.
Proof.
  revert tracker. induction stream as [|ev rest IH]; intros tracker Hdone; cbn [process_stream].
  - exists tracker. split_and!; [done..|]. cbn. by rewrite append_empty_r.
  - destruct (process_stream_event_processed tracker ev w Hdone)
      as (tracker1 & Hrun1 & Hi1 & Ho1 & Hp1 & Ha1).
    destruct (IH tracker1 Hp1) as (tracker' & Hrun & Hi & Ho & Ha).
    exists tracker'. split.
    + unfold mbind, M_bind, bind. rewrite Hrun1, Hrun. reflexivity.
    + split_and!; [congruence | congruence |].
      rewrite Ha, Ha1. cbn [delta_texts foldr]. by rewrite append_assoc.
Qed.

(** Over a whole stream the tracker answers True at most once, to the first
    event that carries [metadata.usage]: its token counts are those of that
    event (0 for a missing count) whatever later events say, and they stay
    0 when no event carries usage.  The text kept is that of the deltas of
    all the other events. *)
Theorem tracker_reports_usage_once
    (user_id conversation_id user_message model_id : string)
    (stream : list StreamEvent) (w : World) :
  let tracker := MessageTracker.init user_id conversation_id user_message model_id in
  ∃ answers tracker' w',
    process_stream tracker stream w = (Ok (answers, tracker'), w') ∧
    match list_find (λ stream_event, is_Some (metadata_usage stream_event)) stream with
    | Some (k, stream_event) =>
        answers = <[k := true]> (replicate (length stream) false) ∧
        Some (MessageTracker.input_tokens tracker', MessageTracker.output_tokens tracker')
        = (λ usage, (default 0 usage.1, default 0 usage.2))
            <$> metadata_usage stream_event ∧
        MessageTracker.assistant_response tracker'
        = delta_texts (take k stream) +:+ delta_texts (drop (S k) stream)
    | None =>
        answers = replicate (length stream) false ∧
        MessageTracker.input_tokens tracker' = 0 ∧
        MessageTracker.output_tokens tracker' = 0 ∧
        MessageTracker.assistant_response tracker' = delta_texts stream
    end.
Proof.
  intros tracker.
  assert (MessageTracker.metadata_processed tracker = false) as Hfresh by done.
  assert (MessageTracker.input_tokens tracker = 0) as Hin by done.
  assert (MessageTracker.output_tokens tracker = 0) as Hout by done.
  assert (∃ answers tracker' w',
      process_stream tracker stream w = (Ok (answers, tracker'), w') ∧
      match list_find (λ stream_event, is_Some (metadata_usage stream_event)) stream with
      | Some (k, stream_event) =>
          answers = <[k := true]> (replicate (length stream) false) ∧
          Some (MessageTracker.input_tokens tracker', MessageTracker.output_tokens tracker')
          = (λ usage, (default 0 usage.1, default 0 usage.2))
              <$> metadata_usage stream_event ∧
          MessageTracker.assistant_response tracker'
          = MessageTracker.assistant_response tracker
            +:+ (delta_texts (take k stream) +:+ delta_texts (drop (S k) stream))
      | None =>
          answers = replicate (length stream) false ∧
          MessageTracker.input_tokens tracker' = 0 ∧
          MessageTracker.output_tokens tracker' = 0 ∧
          MessageTracker.assistant_response tracker'
          = MessageTracker.assistant_response tracker +:+ delta_texts stream
      end) as Hgen; [|exact Hgen].
  clearbody tracker. revert tracker w Hfresh Hin Hout.
  induction stream as [|ev rest IH]; intros tracker w Hfresh Hin Hout.
  - exists [], tracker, w. cbn. by rewrite append_empty_r.
  - cbn [process_stream list_find]. unfold mbind, M_bind, bind.
    destruct (metadata_usage ev) as [usage|] eqn:Husage.
    + rewrite decide_True by done.
      unfold MessageTracker.process_stream_event. rewrite Husage, Hfresh.
      unfold MessageTracker.log_completion, mbind, M_bind, bind, now, mret, M_ret, ret.
      match goal with
      | |- context [process_stream ?t1 rest ?w1] =>
          destruct (process_stream_processed t1 rest w1 eq_refl)
            as (tracker' & -> & Hi & Ho & Ha)
      end.
      exists (true :: replicate (length rest) false), tracker', (advance_clock w).
      split; [done|]. cbn in *. split_and!; [done | by rewrite Hi, Ho |].
      by rewrite Ha, drop_0.
    + rewrite decide_False by (by intros [??]).
      destruct (process_stream_event_fresh tracker ev w Hfresh Husage)
        as (tracker1 & -> & Hi1 & Ho1 & Hp1 & Ha1).
      destruct (IH tracker1 w) as (answers & tracker' & w' & -> & Hrest);
        [done | congruence | congruence |].
      exists (false :: answers), tracker', w'. split; [done|].
      destruct (list_find _ rest) as [[k ev']|];
        cbn [fmap option_fmap option_map prod_map fst snd].
      * destruct Hrest as (-> & Htokens & Ha). split_and!; [done | done |].
        rewrite Ha, Ha1. cbn [take drop delta_texts foldr]. by rewrite !append_assoc.
      * destruct Hrest as (-> & Hi & Ho & Ha). split_and!; [done..|].
        rewrite Ha, Ha1. cbn [delta_texts foldr]. by rewrite !append_assoc.
Qed.
